(** * Starbucks store analysis: the cleaning and aggregation pipeline

    A shallow embedding of [data_processor.py], [analyzer.py] and the
    data-selection part of [visualizer.py], together with the pandas
    operations they call.  The Python classes become modules of the same
    name; a pandas [DataFrame] is an ordered list of rows under a list of
    column names, a [Series] is the list of its values in row order, and a
    cell is [None] for NaN (a missing value) or [Some v].

    pandas itself is an external library: the operations used by the
    program ([df[c]], [df[c] = s], [apply(axis=1)], [replace], boolean
    indexing, [isnull], [sum], [unique], [nunique], [value_counts],
    [nlargest], [head]) are modelled here after their documented
    behaviour, each under its pandas name.  Where that behaviour depends
    on the data types of the columns or is not fixed by pandas (the
    conversions around [apply], the order of equal counts), the model
    takes it as an interface and the theorems hold for every
    implementation of it. *)

From stdpp Require Import gmap strings list sorting.

Open Scope string_scope.
Open Scope list_scope.
Open Scope nat_scope.

(** ** Exceptions *)

(** The Python exceptions that the modelled code can raise: [KeyError]
    from [df[c]] or [row[c]] on an absent label, [IndexError] from
    [index[0]] on an empty index, and [ValueError] from the assignment of
    a frame to one column. *)
Inductive exn : Type :=
  | KeyError (key : string)
  | IndexError
  | ValueError.

Inductive result (A : Type) : Type :=
  | Ok (a : A)
  | Raise (e : exn).
Arguments Ok {A} a.
Arguments Raise {A} e.

#[global] Instance result_ret : MRet result := λ A, Ok.
#[global] Instance result_bind : MBind result :=
  λ A B f m, match m with Ok a => f a | Raise e => Raise e end.

#[global] Instance exn_eq_dec : EqDecision exn.
Proof. solve_decision. Defined.
#[global] Instance result_eq_dec `{EqDecision A} : EqDecision (result A).
Proof. solve_decision. Defined.

(** ** Tables *)

(** A frame over cells of type [C]: the column labels in order, and the
    rows in order, each row a dictionary from column label to cell.  The
    frames of the program have cells [option V]; [isnull] produces a
    frame of booleans. *)
Record DataFrame (C : Type) : Type := mkDataFrame {
  columns : list string;
  rows : list (gmap string C)
}.
Arguments mkDataFrame {C} columns rows.
Arguments columns {C} d.
Arguments rows {C} d.

(** Every row carries exactly the frame's columns, and no label is
    repeated.  Frames read from a CSV file satisfy this. *)
Definition wf {C} (d : DataFrame C) : Prop :=
  NoDup (columns d) ∧ Forall (λ r, ∀ c, is_Some (r !! c) ↔ c ∈ columns d) (rows d).

(** [pd.isnull] on a scalar. *)
Definition isnull {V} (c : option V) : bool :=
  match c with None => true | Some _ => false end.

(** The cell of row [r] under label [c]; a record that lacks the label
    reads as NaN, as in a frame built from records. *)
Definition cell {V} (r : gmap string (option V)) (c : string) : option V :=
  r !! c ≫= id.

(** [row[c]] on the row Series handed to a function by [apply(axis=1)]. *)
Definition row_getitem {V} (row : gmap string (option V)) (c : string)
  : result (option V) :=
  match row !! c with
  | Some v => Ok v
  | None => Raise (KeyError c)
  end.

(** [df[c]]: the column as a Series, [KeyError] when there is no such column. *)
Definition getitem {V} (d : DataFrame (option V)) (c : string)
  : result (list (option V)) :=
  if decide (c ∈ columns d) then Ok ((λ r, cell r c) <$> rows d)
  else Raise (KeyError c).

(** [df[c] = s] for a Series [s] that shares the frame's index (the only
    use in the program: [s] is computed from [df] itself, so no
    realignment takes place).  An absent column is appended. *)
Definition setitem {V} (d : DataFrame (option V)) (c : string)
    (s : list (option V)) : DataFrame (option V) :=
  {| columns := if decide (c ∈ columns d) then columns d else columns d ++ [c];
     rows := zip_with (λ r v, <[c := v]> r) (rows d) s |}.

(** What pandas does around the function in [df.apply(func, axis=1)].

    [func] is not handed the stored cells: the rows come from
    [df.values], in which every cell is converted to the common dtype of
    the frame's columns (beside a float64 column the integers of an int64
    column are read as floats, rounded to 53 bits; beside a column of text
    nothing is converted).  The values [func] returns are gathered with
    [Series(results)], which converts them to their common dtype in the
    same way.  On a frame with no row or no column [func] is run on no
    row: pandas decides by a probe whether the result is a Series or a
    copy of the frame, and the outcome of the assignment that follows
    depends on the version of pandas.

    None of this is code of the program, so it is an interface of the
    model: [as_array d c] is the cell [c] as it stands in [d.values],
    [construct_series] is [Series(results)], and [apply_empty_result] is
    what [df.apply] contributes to the assignment on a frame with an
    empty axis (the Series assigned, or the exception the assignment ends
    with).  What the theorems assume of them: a conversion keeps a null
    cell null and any other cell non-null, and a result has one entry per
    row. *)
Class Pandas (V : Type) : Type := {
  as_array : DataFrame (option V) → option V → option V;
  as_array_isnull : ∀ d c, isnull (as_array d c) = isnull c;
  construct_series : list (option V) → list (option V);
  construct_series_isnull :
    ∀ l, Forall2 (λ c c', isnull c' = isnull c) l (construct_series l);
  apply_empty_result :
    (gmap string (option V) → result (option V)) → DataFrame (option V) →
    result (list (option V));
  apply_empty_result_length :
    ∀ func d s, apply_empty_result func d = Ok s → length s = length (rows d)
}.

(** [not all(df.shape)]: the frame has no row or no column. *)
Definition has_empty_axis {C} (d : DataFrame C) : bool :=
  match rows d, columns d with
  | _ :: _, _ :: _ => false
  | _, _ => true
  end.

(** The rows that [apply(axis=1)] hands to the function: those of
    [df.values] under the column labels. *)
Definition DataFrame_values `{!Pandas V} (d : DataFrame (option V))
  : list (gmap string (option V)) :=
  (λ r : gmap string (option V), as_array d <$> r) <$> rows d.

(** [df.apply(func, axis=1)] for a scalar-valued [func]: on a frame with
    rows and columns, the Series built from [func(row)] over the rows of
    [df.values], in row order; the first exception raised by [func]
    propagates. *)
Definition DataFrame_apply `{!Pandas V}
    (func : gmap string (option V) → result (option V))
    (d : DataFrame (option V)) : result (list (option V)) :=
  if has_empty_axis d then apply_empty_result func d
  else s ← mapM func (DataFrame_values d); Ok (construct_series s).

(** The empty-axis path of pandas 2: [func] is tried on a row of NaN
    under the frame's columns.  When it returns a value, the result is
    that value for every row of the frame (the empty Series when there is
    no row).  When it raises, the result is a copy of the frame, and the
    assignment of a frame to one column goes through only for a frame of
    exactly one column, whose cells are then assigned. *)
Definition probe_empty_result {V}
    (func : gmap string (option V) → result (option V))
    (d : DataFrame (option V)) : result (list (option V)) :=
  match func (list_to_map ((λ c, (c, None)) <$> columns d)) with
  | Ok v => Ok (replicate (length (rows d)) v)
  | Raise _ =>
      match columns d with
      | [c] => Ok ((λ r, cell r c) <$> rows d)
      | _ => Raise ValueError
      end
  end.

(** [s.replace(value_map)] with a flat dictionary: every value that is a
    key is replaced by what the dictionary holds for it, all matches
    being taken against the values before the call. *)
Definition Series_replace `{Countable V} (value_map : gmap (option V) (option V))
    (s : list (option V)) : list (option V) :=
  (λ old, match value_map !! old with Some new => new | None => old end) <$> s.

(** [s == value]: elementwise comparison with a scalar; NaN equals nothing. *)
Definition Series_eq `{EqDecision V} (s : list (option V)) (value : V) : list bool :=
  (λ c, match c with Some v => bool_decide (v = value) | None => false end) <$> s.

(** [s.isnull()]. *)
Definition Series_isnull {V} (s : list (option V)) : list bool := isnull <$> s.

(** [df[mask]]: the rows whose mask entry is [True], in order, with all
    columns; a new frame. *)
Fixpoint mask_rows {A} (l : list A) (mask : list bool) : list A :=
  match l, mask with
  | x :: l', b :: mask' => if b then x :: mask_rows l' mask' else mask_rows l' mask'
  | _, _ => []
  end.

Definition boolean_index {C} (d : DataFrame C) (mask : list bool) : DataFrame C :=
  {| columns := columns d; rows := mask_rows (rows d) mask |}.

(** [df.isnull()]: the frame of booleans. *)
Definition DataFrame_isnull {V} (d : DataFrame (option V)) : DataFrame bool :=
  {| columns := columns d;
     rows := (λ r : gmap string (option V), isnull <$> r) <$> rows d |}.

(** [df.sum()] on a boolean frame: per column, the number of [True]
    cells, as a Series indexed by column label. *)
Definition DataFrame_sum (d : DataFrame bool) : list (string * nat) :=
  (λ c, (c, sum_list ((λ r, match r !! c with Some true => 1 | _ => 0 end) <$> rows d)))
    <$> columns d.

(** [s[lambda x: x > 0]]: selection by a callable. *)
Definition Series_positive {K} (s : list (K * nat)) : list (K * nat) :=
  filter (λ p, (0 < p.2)%nat) s.

(** [df.head()]: the first five rows. *)
Definition DataFrame_head {C} (d : DataFrame C) : DataFrame C :=
  {| columns := columns d; rows := take 5 (rows d) |}.

(** Python's [l[:n]]. *)
Definition slice_to {A} (n : Z) (l : list A) : list A :=
  if decide (0 ≤ n)%Z then take (Z.to_nat n) l
  else take (length l - Z.to_nat (- n)) l.

(** ** Frequency counting *)

(** The order in which [sort_values] leaves entries of equal count is not
    fixed by pandas (it depends on the sorting routine underneath), so the
    model takes the routine as an interface: any function that returns
    its argument rearranged in descending order of count. *)
Class SortValues (V : Type) : Type := {
  sort_values : list (V * nat) → list (V * nat);
  sort_values_perm : ∀ l, sort_values l ≡ₚ l;
  sort_values_desc : ∀ l, Sorted (λ a b, (b.2 ≤ a.2)%nat) (sort_values l)
}.

Section frequency.
  Context `{Countable V}.

(** [s.unique()]: the hashtable's keys in order of first appearance; NaN
    is one of them when it occurs. *)
Definition unique (s : list (option V)) : list (option V) :=
  foldl (λ seen c, if decide (c ∈ seen) then seen else seen ++ [c]) [] s.

(** [remove_na_arraylike]. *)
Definition dropna (s : list (option V)) : list V := omap id s.

(** [s.nunique()] (with its default [dropna=True]): the length of
    [unique] once NaN is removed. *)
Definition nunique (s : list (option V)) : nat := length (dropna (unique s)).

(** One step of the counting hashtable: bump the counter of [v], or enter
    [v] behind the keys seen so far. *)
Fixpoint incr (v : V) (table : list (V * nat)) : list (V * nat) :=
  match table with
  | [] => [(v, 1)]
  | (k, n) :: table' =>
      if decide (k = v) then (k, S n) :: table' else (k, n) :: incr v table'
  end.

(** The counter that a table holds for [k] (zero when [k] is no key). *)
Fixpoint tally (table : list (V * nat)) (k : V) : nat :=
  match table with
  | [] => 0
  | (k', n) :: table' => if decide (k' = k) then n else tally table' k
  end.

(** The hashtable pass of [value_counts] (with its default
    [dropna=True]): NaN cells are skipped. *)
Definition value_count (s : list (option V)) : list (V * nat) :=
  foldl (λ table c, match c with Some v => incr v table | None => table end) [] s.

(** [s.value_counts()]: the counts, sorted in descending order. *)
Definition value_counts `{!SortValues V} (s : list (option V)) : list (V * nat) :=
  sort_values (value_count s).

(** The stable descending sort that [nlargest] uses on its fast path
    (a merge sort in pandas, keeping the first of equal entries first). *)
Fixpoint insert_desc (p : V * nat) (l : list (V * nat)) : list (V * nat) :=
  match l with
  | [] => [p]
  | q :: l' => if decide (q.2 ≤ p.2)%nat then p :: q :: l' else q :: insert_desc p l'
  end.

Definition stable_sort_desc (l : list (V * nat)) : list (V * nat) :=
  foldr insert_desc [] l.

(** [s.nlargest(n)] on a Series of counts without NaN: nothing for
    [n <= 0]; the whole Series sorted when [n] reaches its length; the
    first [n] of the stable sort otherwise. *)
Definition nlargest `{!SortValues V} (n : Z) (s : list (V * nat)) : list (V * nat) :=
  if decide (n ≤ 0)%Z then []
  else if decide (Z.of_nat (length s) ≤ n)%Z then take (Z.to_nat n) (sort_values s)
  else take (Z.to_nat n) (stable_sort_desc s).

(** [index[0]]. *)
Definition index0 (s : list (V * nat)) : result V :=
  match s with
  | [] => Raise IndexError
  | (v, _) :: _ => Ok v
  end.

End frequency.

(** ** data_processor.py *)

(** [fill_city(row)]. *)
Definition fill_city {V} (row : gmap string (option V)) : result (option V) :=
  city ← row_getitem row "City";
  if isnull city then row_getitem row "State/Province" else row_getitem row "City".

Module DataProcessor.
Section methods.
  Context `{Countable V} `{!Pandas V}.

(** The attributes of a [DataProcessor] object.  The configuration is a
    dictionary of settings; the methods below never touch it. *)
Record state : Type := mkState {
  config : gmap string string;
  df : DataFrame (option V)
}.

(** A method: from the object before the call to what the call returns or
    raises, and the object after it. *)
Definition method (A : Type) : Type := state → result A * state.

Definition apply_function (func : gmap string (option V) → result (option V))
    (column : string) : method unit :=
  λ self,
    match DataFrame_apply func (df self) with
    | Ok s => (Ok (), {| config := config self; df := setitem (df self) column s |})
    | Raise e => (Raise e, self)
    end.

Definition replace_values (column : string)
    (value_map : gmap (option V) (option V)) : method unit :=
  λ self,
    match getitem (df self) column with
    | Ok s => (Ok (), {| config := config self;
                         df := setitem (df self) column (Series_replace value_map s) |})
    | Raise e => (Raise e, self)
    end.

Definition filter_by_country (country_code : V) : method (DataFrame (option V)) :=
  λ self,
    (s ← getitem (df self) "Country";
     Ok (boolean_index (df self) (Series_eq s country_code)),
     self).

Definition head : method (DataFrame (option V)) :=
  λ self, (Ok (DataFrame_head (df self)), self).

Definition missing_data : method (list (string * nat)) :=
  λ self, (Ok (Series_positive (DataFrame_sum (DataFrame_isnull (df self)))), self).

Definition city_null : method (DataFrame (option V)) :=
  λ self,
    (s ← getitem (df self) "City";
     Ok (boolean_index (df self) (Series_isnull s)),
     self).

End methods.
Arguments state V : clear implicits.
End DataProcessor.

(** ** analyzer.py *)

Module Analyzer.
Section methods.
  Context `{Countable V} `{!SortValues V}.

(** The dictionary returned by [analyze_data], one field per key. *)
Record analysis : Type := mkAnalysis {
  total_stores : nat;
  total_countries : nat;
  top_country : V;
  top_city : V
}.

(** The entries of the dictionary display are evaluated in order. *)
Definition analyze_data (df : DataFrame (option V)) : result analysis :=
  stores ← getitem df "Store Number";
  countries ← getitem df "Country";
  countries' ← getitem df "Country";
  top_country ← index0 (value_counts countries');
  cities ← getitem df "City";
  top_city ← index0 (value_counts cities);
  Ok {| total_stores := nunique stores;
        total_countries := nunique countries;
        top_country := top_country;
        top_city := top_city |}.

End methods.
Arguments analysis V : clear implicits.
End Analyzer.

(** ** visualizer.py *)

Module Visualizer.
Section methods.
  Context `{Countable V} `{!SortValues V}.

(** [plot_top_n] hands [data.index[:n]] and [data.values[:n]] to the bar
    plot; the model returns these two sequences (titles, labels and
    styling are the renderer's business). *)
Definition plot_top_n (data : list (V * nat)) (n : Z) : list V * list nat :=
  (slice_to n (data.*1), slice_to n (data.*2)).

Definition plot_top_countries (df : DataFrame (option V)) (n : Z)
  : result (list V * list nat) :=
  s ← getitem df "Country";
  Ok (plot_top_n (nlargest n (value_counts s)) n).

Definition plot_top_cities (df : DataFrame (option V)) (n : Z)
  : result (list V * list nat) :=
  s ← getitem df "City";
  Ok (plot_top_n (nlargest n (value_counts s)) n).

Definition plot_top_cn_cities (df : DataFrame (option V)) (n : Z)
  : result (list V * list nat) :=
  s ← getitem df "City";
  Ok (plot_top_n (nlargest n (value_counts s)) n).

End methods.
End Visualizer.

(** * Specification vocabulary *)

Section vocabulary.
  Context `{Countable V}.

(** The number of distinct values held by a column (NaN is the absence
    of a value). *)
Definition distinct (s : list (option V)) : nat :=
  size (list_to_set (C := gset V) (dropna s)).

(** The number of rows of a column that hold [v]. *)
Definition row_count (v : V) (s : list (option V)) : nat :=
  length (filter (λ c, c = Some v) s).

(** [v] occurs in the column, and no value occurs in more rows. *)
Definition most_frequent (v : V) (s : list (option V)) : Prop :=
  Some v ∈ s ∧ ∀ w, row_count w s ≤ row_count v s.

(** The number of rows of a frame whose cell under [c] is NaN. *)
Definition null_count (d : DataFrame (option V)) (c : string) : nat :=
  length (filter (λ r, cell r c = None) (rows d)).


End vocabulary.

(** The rows of the frame stand in [df.values] as they are stored: the
    conversion to the common dtype changes none of its cells. *)
Definition handed_as_is `{!Pandas V} (d : DataFrame (option V)) : Prop :=
  ∀ r, r ∈ rows d → as_array d <$> r = r.

(** * Concrete tables *)

(** [dict.fromkeys(keys, value)], as main.py builds the dictionary that
    sends every brand to one label. *)
Definition fromkeys `{Countable K} {A} (keys : list K) (value : A) : gmap K A :=
  list_to_map ((λ k, (k, value)) <$> keys).

(** The frame that holds the given lines under the given header, as
    [read_csv] builds it. *)
Definition table {V} (header : list string) (lines : list (list (option V)))
  : DataFrame (option V) :=
  {| columns := header;
     rows := (λ cells, list_to_map (zip header cells)) <$> lines |}.

(** Numbers as numeric columns hold them: a 64-bit integer, or a float64
    of value [m * 2^e]. *)
Inductive number : Type :=
  | Int64 (z : Z)
  | Float64 (m e : Z).

(** The integer nearest to [z] that has at most 53 significant bits, ties
    going to the even one: the value of the float64 an int64 is cast to. *)
Definition round_53 (z : Z) : Z :=
  let a := Z.abs z in
  let k := (Z.log2 a + 1 - 53)%Z in
  if decide (k ≤ 0)%Z then z
  else
    let q := (a / 2 ^ k)%Z in
    let r := (a mod 2 ^ k)%Z in
    let half := (2 ^ (k - 1))%Z in
    let q' := if decide (r < half)%Z then q
              else if decide (half < r)%Z then (q + 1)%Z
              else if Z.even q then q else (q + 1)%Z in
    (Z.sgn z * (q' * 2 ^ k))%Z.

Definition to_float64 (x : number) : number :=
  match x with
  | Int64 z => Float64 (round_53 z) 0
  | Float64 m e => Float64 m e
  end.

Definition is_int64 (c : option number) : bool :=
  match c with Some (Int64 _) => true | _ => false end.

(** Every column of the frame is an int64 column. *)
Definition all_int64 (d : DataFrame (option number)) : bool :=
  forallb (λ r, forallb (λ c, is_int64 (cell r c)) (columns d)) (rows d).

(** Frames of numbers: unless every column is int64 the common dtype is
    float64, and the integers are cast; likewise for the results. *)
Definition number_as_array (d : DataFrame (option number)) (c : option number)
  : option number :=
  if all_int64 d then c else to_float64 <$> c.

Definition number_construct_series (l : list (option number)) : list (option number) :=
  if forallb is_int64 l then l else (λ c : option number, to_float64 <$> c) <$> l.

(** One store without a city, whose state/province is recorded as the
    number 2^53 + 1: a float64 column beside an int64 column. *)
Definition numbered_state : DataFrame (option number) :=
  table ["City"; "State/Province"] [ [None; Some (Int64 9007199254740993)] ].

(** Stores with brand, country and city. *)
Definition branded_cities : DataFrame (option string) :=
  table ["Store Number"; "Brand"; "Country"; "City"]
    [ [Some "1"; Some "Starbucks"; Some "US"; Some "Seattle"];
      [Some "2"; Some "Teavana"; Some "CN"; Some "Beijing"];
      [Some "3"; Some "Teavana"; Some "US"; Some "Seattle"] ].

(** The three stores of the end-to-end scenario. *)
Definition three_stores : DataFrame (option string) :=
  table ["Store Number"; "Country"; "City"]
    [ [Some "1"; Some "US"; Some "Seattle"];
      [Some "2"; Some "US"; Some "Seattle"];
      [Some "3"; Some "CN"; Some "Beijing"] ].

(** One store whose country was left blank in the file. *)
Definition blank_country : DataFrame (option string) :=
  table ["Store Number"; "Country"; "City"] [ [Some "1"; None; Some "Seattle"] ].

(** Two stores with neither city nor state/province, after [fill_city]. *)
Definition blank_cities : DataFrame (option string) :=
  table ["Store Number"; "Country"; "City"; "State/Province"]
    [ [Some "1"; Some "EG"; None; None];
      [Some "2"; Some "EG"; None; None] ].

(** Stores of which one lacks its city. *)
Definition missing_city : DataFrame (option string) :=
  table ["Store Number"; "Country"; "City"; "State/Province"]
    [ [Some "1"; Some "US"; None; Some "WA"];
      [Some "2"; Some "US"; Some "Seattle"; Some "WA"] ].

(** Stores under two brand labels. *)
Definition two_brands : DataFrame (option string) :=
  table ["Store Number"; "Brand"]
    [ [Some "1"; Some "Starbucks"];
      [Some "2"; Some "Teavana"] ].

(** The row of the imputation scenario: no city, state WA. *)
Definition wa_row : gmap string (option string) :=
  list_to_map [("City", None); ("State/Province", Some "WA")].

(** A processor holding a table, with an empty configuration. *)
Definition processor (d : DataFrame (option string)) : DataProcessor.state string :=
  DataProcessor.mkState ∅ d.

(** A processor holding a table of numbers. *)
Definition number_processor (d : DataFrame (option number)) : DataProcessor.state number :=
  DataProcessor.mkState ∅ d.


(** Stores read from a file that has no State/Province column. *)
Definition no_state : DataFrame (option string) :=
  table ["Store Number"; "City"]
    [ [Some "1"; Some "Seattle"];
      [Some "2"; None];
      [Some "3"; None] ].


(** The three stores of the scenario, last row first. *)
Definition three_stores_reversed : DataFrame (option string) :=
  table ["Store Number"; "Country"; "City"]
    [ [Some "3"; Some "CN"; Some "Beijing"];
      [Some "2"; Some "US"; Some "Seattle"];
      [Some "1"; Some "US"; Some "Seattle"] ].

(** * Facts about the pandas operations *)

Section result_facts.
  Context {A B : Type}.

Lemma mapM_result_length (f : A → result B) (l : list A) (k : list B) :
  mapM f l = Ok k → length k = length l.
Proof.
  revert k. induction l as [|x l IH]; intros k; simpl.
  - by intros [= <-].
  - destruct (f x) as [y|e]; simpl; [|done].
    destruct (mapM f l) as [k'|e]; simpl; [|done].
    intros [= <-]. simpl. f_equal. by apply IH.
Qed.

Lemma mapM_result_lookup (f : A → result B) (l : list A) (k : list B) i x :
  mapM f l = Ok k → l !! i = Some x → ∃ y, f x = Ok y ∧ k !! i = Some y.
Proof.
  revert k i. induction l as [|x' l IH]; intros k i; simpl; [done|].
  destruct (f x') as [y|e] eqn:Hy; simpl; [|done].
  destruct (mapM f l) as [k'|e]; simpl; [|done].
  intros [= <-]. destruct i as [|i]; simpl.
  - intros [= ->]. eauto.
  - intros Hi. by apply IH.
Qed.

Lemma mapM_result_total (f : A → result B) (l : list A) :
  (∀ x, x ∈ l → ∃ y, f x = Ok y) → ∃ k, mapM f l = Ok k.
Proof.
  induction l as [|x l IH]; intros Hf; simpl; [by eexists|].
  destruct (Hf x) as [y ->]; [left|]. simpl.
  destruct IH as [k ->]; [|by eexists].
  intros x' Hx'. apply Hf. by right.
Qed.

Lemma mapM_result_raise (f : A → result B) (l : list A) e :
  mapM f l = Raise e → ∃ x, x ∈ l ∧ f x = Raise e.
Proof.
  induction l as [|x l IH]; simpl; [done|].
  destruct (f x) as [y|e'] eqn:Hy; simpl.
  - destruct (mapM f l) as [k'|e']; simpl; [done|].
    intros [= ->]. destruct IH as (x' & ? & ?); [done|].
    exists x'. split; [by right|done].
  - intros [= ->]. exists x. split; [left|done].
Qed.

End result_facts.

Section frequency_facts.
  Context `{Countable V}.
  Implicit Types (s : list (option V)) (table : list (V * nat)) (v k : V).

Lemma unique_foldl s seen :
  NoDup seen →
  let out := foldl (λ seen c, if decide (c ∈ seen) then seen else seen ++ [c]) seen s in
  NoDup out ∧ ∀ c, c ∈ out ↔ c ∈ seen ∨ c ∈ s.
Proof.
  revert seen. induction s as [|c0 s IH]; intros seen Hnd; simpl.
  - split; [done|]. intros c. rewrite elem_of_nil. intuition (simplify_eq; auto).
  - case_decide as Hin.
    + destruct (IH seen Hnd) as [Hnd' Hel]. split; [done|].
      intros c. rewrite Hel, elem_of_cons. intuition (simplify_eq; auto).
    + destruct (IH (seen ++ [c0])) as [Hnd' Hel].
      { apply NoDup_app. split_and!; [done| |apply NoDup_singleton].
        intros x Hx ->%list_elem_of_singleton. done. }
      split; [done|]. intros c.
      rewrite Hel, elem_of_app, list_elem_of_singleton, elem_of_cons. intuition (simplify_eq; auto).
Qed.

Lemma NoDup_unique s : NoDup (unique s).
Proof. apply (unique_foldl s []), NoDup_nil_2. Qed.

Lemma elem_of_unique s c : c ∈ unique s ↔ c ∈ s.
Proof.
  destruct (unique_foldl s [] (NoDup_nil_2)) as [_ Hel].
  unfold unique. rewrite Hel, elem_of_nil. intuition (simplify_eq; auto).
Qed.

Lemma elem_of_dropna s v : v ∈ dropna s ↔ Some v ∈ s.
Proof.
  unfold dropna. rewrite list_elem_of_omap. split.
  - intros (c & Hc & Heq). simpl in Heq. by subst.
  - intros Hv. by exists (Some v).
Qed.

Lemma NoDup_dropna s : NoDup s → NoDup (dropna s).
Proof.
  induction 1 as [|c s Hc Hnd IH]; simpl; [constructor|].
  destruct c as [v|]; simpl; [|done].
  constructor; [|done]. by rewrite elem_of_dropna.
Qed.

(** [nunique] counts the distinct values of the column. *)
Lemma nunique_distinct s : nunique s = distinct s.
Proof.
  unfold nunique, distinct.
  rewrite <- (size_list_to_set (C := gset V) (dropna (unique s)))
    by apply NoDup_dropna, NoDup_unique.
  f_equal. apply set_eq. intros v.
  by rewrite !elem_of_list_to_set, !elem_of_dropna, elem_of_unique.
Qed.


Lemma tally_incr v table k :
  tally (incr v table) k = if decide (k = v) then S (tally table k) else tally table k.
Proof.
  induction table as [|[k' n] table IH]; simpl.
  - repeat case_decide; congruence.
  - destruct (decide (k' = v)) as [->|Hne]; simpl.
    + repeat case_decide; congruence.
    + rewrite IH. repeat case_decide; congruence.
Qed.

Lemma keys_incr v table :
  (incr v table).*1 = if decide (v ∈ table.*1) then table.*1 else table.*1 ++ [v].
Proof.
  induction table as [|[k' n] table IH].
  - rewrite decide_False by apply not_elem_of_nil. done.
  - cbn [incr]. destruct (decide (k' = v)) as [->|Hne].
    + rewrite decide_True by (rewrite fmap_cons; left). done.
    + rewrite !fmap_cons, IH. cbn [fst]. destruct (decide (v ∈ table.*1)) as [Hin|Hin].
      * rewrite decide_True by (by right). done.
      * rewrite decide_False; [done|]. rewrite elem_of_cons. intros [?|?]; auto.
Qed.

Lemma NoDup_keys_incr v table : NoDup table.*1 → NoDup (incr v table).*1.
Proof.
  intros Hnd. rewrite keys_incr. case_decide as Hin; [done|].
  apply NoDup_app. split_and!; [done| |apply NoDup_singleton].
  by intros x Hx ->%list_elem_of_singleton.
Qed.

Lemma elem_of_keys_incr v table k :
  k ∈ (incr v table).*1 ↔ k ∈ table.*1 ∨ k = v.
Proof.
  rewrite keys_incr. case_decide as Hin.
  - intuition (simplify_eq; auto).
  - by rewrite elem_of_app, list_elem_of_singleton.
Qed.

Lemma row_count_cons c s k :
  row_count k (c :: s) = (if decide (c = Some k) then 1 else 0) + row_count k s.
Proof. unfold row_count. rewrite filter_cons. by case_decide. Qed.

Lemma value_count_foldl s table :
  NoDup table.*1 →
  let out := foldl (λ table c, match c with Some v => incr v table | None => table end)
                   table s in
  NoDup out.*1 ∧
  (∀ k, k ∈ out.*1 ↔ k ∈ table.*1 ∨ Some k ∈ s) ∧
  (∀ k, tally out k = tally table k + row_count k s).
Proof.
  revert table. induction s as [|c s IH]; intros table Hnd; simpl.
  - split_and!; [done| |].
    + intros k. rewrite elem_of_nil. intuition (simplify_eq; auto).
    + intros k. unfold row_count. simpl. lia.
  - destruct c as [v|].
    + destruct (IH (incr v table) (NoDup_keys_incr v table Hnd)) as (Hnd' & Hk & Ht).
      split_and!; [done| |].
      * intros k. rewrite Hk, elem_of_keys_incr, elem_of_cons. intuition (simplify_eq; auto).
      * intros k. rewrite Ht, tally_incr, row_count_cons.
        repeat case_decide; simplify_eq; lia.
    + destruct (IH table Hnd) as (Hnd' & Hk & Ht). split_and!; [done| |].
      * intros k. rewrite Hk, elem_of_cons. intuition (simplify_eq; auto).
      * intros k. rewrite Ht, row_count_cons. case_decide; [done|lia].
Qed.

Lemma elem_of_table table k n :
  NoDup table.*1 → (k, n) ∈ table ↔ k ∈ table.*1 ∧ tally table k = n.
Proof.
  induction table as [|[k' n'] table IH]; simpl; intros Hnd.
  - rewrite !elem_of_nil. intuition (simplify_eq; auto).
  - apply NoDup_cons in Hnd as [Hk' Hnd]. rewrite !elem_of_cons, (IH Hnd).
    case_decide as Heq; [subst k'|]; split.
    + intros [[= <-]|[Hin _]]; [auto|done].
    + intros [_ <-]. auto.
    + intros [[= <- <-]|[Hin Ht]]; [done|auto].
    + intros [[->|Hin] Ht]; [done|auto].
Qed.

Lemma row_count_pos v s : 0 < row_count v s ↔ Some v ∈ s.
Proof.
  induction s as [|c s IH]; [rewrite elem_of_nil; unfold row_count; simpl; lia|].
  rewrite row_count_cons, elem_of_cons. case_decide as Hc.
  - split; [auto|lia].
  - rewrite <- IH. split; [auto|]. intros [?|?]; [congruence|done].
Qed.

(** The counting pass holds one entry per distinct value, in which the
    value's number of rows is recorded. *)
Lemma NoDup_value_count s : NoDup (value_count s).*1.
Proof. apply (value_count_foldl s []). constructor. Qed.

Lemma elem_of_value_count s v n :
  (v, n) ∈ value_count s ↔ Some v ∈ s ∧ n = row_count v s.
Proof.
  destruct (value_count_foldl s [] (NoDup_nil_2)) as (Hnd & Hk & Ht).
  unfold value_count. rewrite (elem_of_table _ _ _ Hnd), Hk, Ht. simpl.
  rewrite elem_of_nil. intuition (simplify_eq; auto).
Qed.

Lemma value_count_length s : length (value_count s) = distinct s.
Proof.
  unfold distinct.
  rewrite <- (length_fmap fst), <- (size_list_to_set (C := gset V) _ (NoDup_value_count s)).
  f_equal. apply set_eq. intros v.
  rewrite !elem_of_list_to_set, elem_of_dropna.
  destruct (value_count_foldl s [] (NoDup_nil_2)) as (_ & Hk & _).
  unfold value_count. rewrite Hk, elem_of_nil. intuition (simplify_eq; auto).
Qed.

End frequency_facts.

Section sorting_facts.
  Context `{Countable V}.
  Implicit Types (l : list (V * nat)) (p q : V * nat).

  Local Abbreviation desc := (λ a b : V * nat, b.2 ≤ a.2).

#[local] Instance desc_trans : Transitive desc.
Proof. intros a b c; simpl; lia. Qed.

Lemma insert_desc_perm p l : insert_desc p l ≡ₚ p :: l.
Proof.
  induction l as [|q l IH]; simpl; [done|].
  case_decide; [done|]. by rewrite IH, Permutation_swap.
Qed.

Lemma stable_sort_desc_perm l : stable_sort_desc l ≡ₚ l.
Proof.
  induction l as [|p l IH]; simpl; [done|].
  by rewrite insert_desc_perm, IH.
Qed.

Lemma insert_desc_sorted p l : Sorted desc l → Sorted desc (insert_desc p l).
Proof.
  induction 1 as [|q l Hl IH Hhd]; simpl.
  - repeat constructor.
  - case_decide as Hle.
    + constructor; [by constructor|]. by constructor.
    + constructor; [done|].
      destruct Hhd as [|q' l' Hq']; simpl.
      * constructor. simpl. lia.
      * case_decide; constructor; simpl; [lia|done].
Qed.

Lemma stable_sort_desc_sorted l : Sorted desc (stable_sort_desc l).
Proof.
  induction l as [|p l IH]; simpl; [constructor|].
  by apply insert_desc_sorted.
Qed.

(** The stable sort is one routine that [sort_values] may be. *)
#[export] Instance stable_sort_values : SortValues V := {|
  sort_values := stable_sort_desc;
  sort_values_perm := stable_sort_desc_perm;
  sort_values_desc := stable_sort_desc_sorted
|}.

Lemma sorted_desc_head p l q :
  Sorted desc (p :: l) → q ∈ p :: l → q.2 ≤ p.2.
Proof.
  intros Hs%Sorted_StronglySorted; [|apply _].
  apply StronglySorted_inv in Hs as [_ Hall].
  intros [->|Hq]%elem_of_cons; [done|].
  rewrite Forall_forall in Hall. by apply Hall.
Qed.

Lemma sorted_desc_take n l : Sorted desc l → Sorted desc (take n l).
Proof.
  intros Hs%Sorted_StronglySorted; [|apply _].
  apply StronglySorted_Sorted.
  revert n. induction Hs as [|p l Hl IH Hall]; intros [|n]; simpl; try constructor.
  - apply IH.
  - apply Forall_take. done.
Qed.

(** Two entries already in strictly descending order are left where they
    are by every descending rearrangement. *)
Lemma sorted_desc_perm_pair p q l :
  q.2 < p.2 → l ≡ₚ [p; q] → Sorted desc l → l = [p; q].
Proof.
  intros Hlt Hp Hs.
  symmetry in Hp. apply Permutation_length_2_inv in Hp as [->| ->]; [done|].
  apply Sorted_inv in Hs as [_ Hhd]. apply HdRel_inv in Hhd. simpl in Hhd. lia.
Qed.

Section any_routine.
  Context `{!SortValues V}.
  Implicit Types (s : list (option V)).

Lemma sort_values_nil : sort_values (V := V) [] = [].
Proof. apply Permutation_nil_r. by rewrite sort_values_perm. Qed.

Lemma sort_values_length l : length (sort_values l) = length l.
Proof. by rewrite sort_values_perm. Qed.

Lemma elem_of_value_counts s v n :
  (v, n) ∈ value_counts s ↔ Some v ∈ s ∧ n = row_count v s.
Proof. unfold value_counts. by rewrite sort_values_perm, elem_of_value_count. Qed.

Lemma value_counts_length s : length (value_counts s) = distinct s.
Proof. unfold value_counts. by rewrite sort_values_length, value_count_length. Qed.

Lemma value_counts_sorted s : Sorted desc (value_counts s).
Proof. apply sort_values_desc. Qed.

(** The first entry of [value_counts] is a most frequent value. *)
Lemma value_counts_head s v n rest :
  value_counts s = (v, n) :: rest → most_frequent v s ∧ n = row_count v s.
Proof.
  intros Hvc.
  assert ((v, n) ∈ value_counts s) as [Hv ->]%elem_of_value_counts
    by (rewrite Hvc; left).
  split; [|done]. split; [done|]. intros w.
  destruct (decide (Some w ∈ s)) as [Hw|Hw].
  - assert ((w, row_count w s) ∈ value_counts s) as Hin
      by by apply elem_of_value_counts.
    pose proof (value_counts_sorted s) as Hs. rewrite Hvc in Hs, Hin.
    apply (sorted_desc_head _ _ _ Hs Hin).
  - rewrite <- row_count_pos in Hw. lia.
Qed.

Lemma index0_value_counts_ok s :
  (∃ v, Some v ∈ s) → ∃ v, index0 (value_counts s) = Ok v ∧ most_frequent v s.
Proof.
  intros [w Hw]. destruct (value_counts s) as [|[v n] rest] eqn:Hvc.
  - assert ((w, row_count w s) ∈ value_counts s) as Hin
      by by apply elem_of_value_counts.
    rewrite Hvc in Hin. by apply elem_of_nil in Hin.
  - exists v. split; [done|]. by apply value_counts_head in Hvc as [? _].
Qed.

Lemma index0_value_counts_raise s :
  (∀ v, Some v ∉ s) → index0 (value_counts s) = Raise IndexError.
Proof.
  intros Hnone. destruct (value_counts s) as [|[v n] rest] eqn:Hvc; [done|].
  assert ((v, n) ∈ value_counts s) as [Hv _]%elem_of_value_counts
    by (rewrite Hvc; left).
  by apply Hnone in Hv.
Qed.

Lemma nlargest_spec (n : Z) l :
  (0 < n)%Z →
  ∃ l', l' ≡ₚ l ∧ Sorted desc l' ∧ nlargest n l = take (Z.to_nat n) l'.
Proof.
  intros Hn. unfold nlargest. rewrite decide_False by lia. case_decide.
  - exists (sort_values l). split_and!; [apply sort_values_perm|apply sort_values_desc|done].
  - exists (stable_sort_desc l).
    split_and!; [apply stable_sort_desc_perm|apply stable_sort_desc_sorted|done].
Qed.

End any_routine.
End sorting_facts.

(** * fill_city *)

(** C3.  [fill_city] returns the row's city whenever it is not null,
    whatever the row holds (or lacks) under State/Province; when the city
    is null it returns the state/province, and when both are null it
    returns null without raising. *)
Theorem fill_city_spec {V} (row : gmap string (option V)) (city state : option V) :
  row !! "City" = Some city →
  row !! "State/Province" = Some state →
  fill_city row = Ok (if isnull city then state else city) ∧
  (city ≠ None →
     ∀ row' : gmap string (option V), row' !! "City" = Some city → fill_city row' = Ok city) ∧
  (city = None → state = None → fill_city row = Ok None).
Proof.
  intros Hcity Hstate. unfold fill_city, row_getitem. split_and!.
  - rewrite !Hcity, Hstate. by destruct city.
  - intros Hnn row' Hcity'. rewrite !Hcity'. by destruct city.
  - intros -> ->. by rewrite !Hcity, Hstate.
Qed.

(** * analyze_data *)

Section analyzer_facts.
  Context `{Countable V} `{!SortValues V}.
  Implicit Types (df : DataFrame (option V)) (s : list (option V)).

Lemma distinct_singleton (v : V) : distinct [Some v] = 1.
Proof.
  unfold distinct. change (dropna [Some v]) with [v].
  rewrite list_to_set_singleton_L. apply size_singleton.
Qed.

Lemma most_frequent_singleton (v w : V) : most_frequent v [Some w] → v = w.
Proof. intros [Hin _]. apply list_elem_of_singleton in Hin. congruence. Qed.

(** With no value under Country, or none under City, [index[0]] is taken
    of an empty index. *)
Lemma analyze_data_no_value df stores countries cities :
  getitem df "Store Number" = Ok stores →
  getitem df "Country" = Ok countries →
  getitem df "City" = Ok cities →
  (∀ v, Some v ∉ countries) ∨ (∀ v, Some v ∉ cities) →
  Analyzer.analyze_data df = Raise IndexError.
Proof.
  intros Hs Hc Ht. unfold Analyzer.analyze_data. rewrite Hs, Hc, Ht. simpl.
  destruct (index0 (value_counts countries)) as [tc|e] eqn:Htc; simpl.
  - intros [Hnone|Hnone].
    + by rewrite index0_value_counts_raise in Htc.
    + by rewrite index0_value_counts_raise.
  - intros _. destruct (value_counts countries) as [|[??]?]; simpl in Htc; congruence.
Qed.

(** C1 (amended).  On a table whose Country and City columns each hold a
    value, [analyze_data] returns the numbers of distinct store numbers
    and of distinct countries, a country held by the largest number of
    rows and a city held by the largest number of rows; on a single row
    without nulls these are 1, 1 and the row's country and city. *)
Theorem analyze_data_summary df stores countries cities :
  getitem df "Store Number" = Ok stores →
  getitem df "Country" = Ok countries →
  getitem df "City" = Ok cities →
  (∃ v, Some v ∈ countries) →
  (∃ v, Some v ∈ cities) →
  ∃ a, Analyzer.analyze_data df = Ok a ∧
       Analyzer.total_stores a = distinct stores ∧
       Analyzer.total_countries a = distinct countries ∧
       most_frequent (Analyzer.top_country a) countries ∧
       most_frequent (Analyzer.top_city a) cities ∧
       (∀ i c t, stores = [Some i] → countries = [Some c] → cities = [Some t] →
          a = Analyzer.mkAnalysis 1 1 c t).
Proof.
  intros Hs Hc Ht Hsomec Hsomet.
  destruct (index0_value_counts_ok countries Hsomec) as (tc & Htc & Hmc).
  destruct (index0_value_counts_ok cities Hsomet) as (tt & Htt & Hmt).
  eexists. unfold Analyzer.analyze_data.
  rewrite Hs, Hc, Ht. simpl. rewrite Htc. simpl. rewrite Htt. simpl.
  split; [done|]. simpl. rewrite !nunique_distinct.
  split_and!; try done.
  intros i c t -> -> ->. rewrite !distinct_singleton.
  by apply most_frequent_singleton in Hmc as ->, Hmt as ->.
Qed.

(** C2 (amended).  [analyze_data] raises [IndexError] on every table
    without rows, and more generally whenever the Country column or the
    City column holds no value; it returns its four statistics whenever
    both columns hold a value. *)
Theorem analyze_data_outcome df stores countries cities :
  getitem df "Store Number" = Ok stores →
  getitem df "Country" = Ok countries →
  getitem df "City" = Ok cities →
  (rows df = [] → Analyzer.analyze_data df = Raise IndexError) ∧
  ((∀ v, Some v ∉ countries) ∨ (∀ v, Some v ∉ cities) →
     Analyzer.analyze_data df = Raise IndexError) ∧
  ((∃ v, Some v ∈ countries) → (∃ v, Some v ∈ cities) →
     ∃ a, Analyzer.analyze_data df = Ok a).
Proof.
  intros Hs Hc Ht.
  pose proof (analyze_data_no_value df stores countries cities Hs Hc Ht) as Hraise.
  split_and!; [|done|].
  - intros Hrows. apply Hraise. left. intros v.
    unfold getitem in Hc. case_decide; [|done].
    injection Hc as <-. rewrite Hrows. apply not_elem_of_nil.
  - intros Hsomec Hsomet.
    destruct (index0_value_counts_ok countries Hsomec) as (tc & Htc & _).
    destruct (index0_value_counts_ok cities Hsomet) as (tt & Htt & _).
    unfold Analyzer.analyze_data.
    rewrite Hs, Hc, Ht. simpl. rewrite Htc. simpl. rewrite Htt. simpl. by eexists.
Qed.

End analyzer_facts.

(** * DataProcessor *)

Section frame_facts.
  Context `{Countable V}.
  Implicit Types (d : DataFrame (option V)) (r : gmap string (option V))
    (s : list (option V)) (c : string).

Lemma cell_insert r c v : cell (<[c := v]> r) c = v.
Proof. unfold cell. by rewrite lookup_insert_eq. Qed.

Lemma cell_insert_ne r c c' v : c ≠ c' → cell (<[c := v]> r) c' = cell r c'.
Proof. intros Hne. unfold cell. by rewrite lookup_insert_ne. Qed.

Lemma getitem_ok d c : c ∈ columns d → getitem d c = Ok ((λ r, cell r c) <$> rows d).
Proof. intros Hc. unfold getitem. by rewrite decide_True. Qed.

Lemma getitem_raise d c : c ∉ columns d → getitem d c = Raise (KeyError c).
Proof. intros Hc. unfold getitem. by rewrite decide_False. Qed.

Lemma getitem_length d c s : getitem d c = Ok s → length s = length (rows d).
Proof.
  unfold getitem. case_decide; [|done]. intros [= <-]. by rewrite length_fmap.
Qed.

Lemma columns_setitem d c s :
  ∀ c', c' ∈ columns (setitem d c s) ↔ c' ∈ columns d ∨ c' = c.
Proof.
  intros c'. simpl. case_decide as Hin.
  - split; [auto|]. intros [?| ->]; done.
  - by rewrite elem_of_app, list_elem_of_singleton.
Qed.

Lemma rows_setitem_length d c s :
  length s = length (rows d) → length (rows (setitem d c s)) = length (rows d).
Proof. intros Hlen. simpl. by rewrite length_zip_with_l_eq. Qed.

Lemma rows_setitem_lookup d c s i r v :
  rows d !! i = Some r → s !! i = Some v →
  rows (setitem d c s) !! i = Some (<[c := v]> r).
Proof. intros Hr Hv. simpl. rewrite lookup_zip_with, Hr. simpl. by rewrite Hv. Qed.

(** Reading back a column that has just been assigned gives the Series
    assigned. *)
Lemma getitem_setitem d c s :
  length s = length (rows d) → getitem (setitem d c s) c = Ok s.
Proof.
  intros Hlen. rewrite getitem_ok by (apply columns_setitem; auto).
  f_equal. simpl. revert s Hlen.
  induction (rows d) as [|r l IH]; intros [|v s] Hlen; simplify_eq/=; [done|].
  by rewrite cell_insert, IH.
Qed.

(** Assigning a column twice is assigning the second Series. *)
Lemma setitem_setitem d c s s' :
  length s = length (rows d) → length s' = length (rows d) →
  setitem (setitem d c s) c s' = setitem d c s'.
Proof.
  intros Hlen Hlen'. unfold setitem at 1 3. f_equal.
  - simpl. destruct (decide (c ∈ columns d)) as [Hin|Hin].
    + by rewrite decide_True.
    + rewrite decide_True; [done|]. rewrite elem_of_app, list_elem_of_singleton. auto.
  - simpl. revert s s' Hlen Hlen'.
    induction (rows d) as [|r l IH]; intros [|v s] [|v' s'] ??; simplify_eq/=; [done|].
    by rewrite insert_insert_eq, IH.
Qed.

Lemma wf_setitem d c s : wf d → wf (setitem d c s).
Proof.
  intros [Hnd Hrows]. split.
  - simpl. case_decide as Hin; [done|].
    apply NoDup_app. split_and!; [done| |apply NoDup_singleton].
    by intros x Hx ->%list_elem_of_singleton.
  - apply Forall_forall. intros r' Hr'. simpl in Hr'.
    apply elem_of_zip_with in Hr' as (r & v & -> & Hr & _).
    rewrite Forall_forall in Hrows. intros c'.
    rewrite lookup_insert_is_Some', (Hrows r Hr), columns_setitem.
    split; intros [?|?]; auto.
Qed.

Lemma mask_rows_sublist {A} (l : list A) (mask : list bool) :
  mask_rows l mask `sublist_of` l.
Proof.
  revert mask. induction l as [|x l IH]; intros [|[] mask]; simpl;
    try apply sublist_nil_l.
  - by apply sublist_skip.
  - by apply sublist_cons.
Qed.

Lemma wf_boolean_index d (mask : list bool) : wf d → wf (boolean_index d mask).
Proof.
  intros [Hnd Hrows]. split; [done|]. simpl.
  rewrite Forall_forall in Hrows |- *. intros r Hr. apply Hrows.
  by apply (sublist_subseteq _ _ (mask_rows_sublist (rows d) mask)).
Qed.

Lemma mask_rows_Series_eq (l : list (gmap string (option V))) c (v : V) :
  mask_rows l (Series_eq ((λ r, cell r c) <$> l) v) = filter (λ r, cell r c = Some v) l.
Proof.
  induction l as [|r l IH]; [done|].
  rewrite filter_cons. cbn [fmap list_fmap Series_eq mask_rows]. fold (Series_eq ((λ r, cell r c) <$> l) v).
  rewrite IH. destruct (cell r c) as [w|].
  - destruct (decide (w = v)) as [->|Hne].
    + by rewrite bool_decide_eq_true_2, decide_True.
    + rewrite bool_decide_eq_false_2 by done. rewrite decide_False; [done|congruence].
  - by rewrite decide_False.
Qed.

Lemma mask_rows_Series_isnull (l : list (gmap string (option V))) c :
  mask_rows l (Series_isnull ((λ r, cell r c) <$> l)) = filter (λ r, cell r c = None) l.
Proof.
  induction l as [|r l IH]; [done|].
  rewrite filter_cons. cbn [fmap list_fmap Series_isnull mask_rows].
  fold (Series_isnull ((λ r, cell r c) <$> l)).
  rewrite IH. by destruct (cell r c).
Qed.

(** In a well-formed frame, the sum of a column of [isnull] is the
    column's number of null cells. *)
Lemma isnull_sum_null_count d c :
  wf d → c ∈ columns d →
  sum_list ((λ r : gmap string bool, match r !! c with Some true => 1 | _ => 0 end)
              <$> ((λ r : gmap string (option V), isnull <$> r) <$> rows d))
  = null_count d c.
Proof.
  intros [_ Hrows] Hc. unfold null_count.
  induction Hrows as [|r l Hr Hl IH]; [done|].
  rewrite filter_cons. cbn [fmap list_fmap sum_list]. rewrite IH.
  rewrite lookup_fmap. unfold cell.
  destruct (proj2 (Hr c) Hc) as [x ->]. simpl.
  by destruct x.
Qed.

End frame_facts.

Section apply_facts.
  Context `{!Pandas V}.
  Implicit Types (d : DataFrame (option V)) (r : gmap string (option V))
    (s : list (option V)).

Lemma has_empty_axis_false d : rows d ≠ [] → columns d ≠ [] → has_empty_axis d = false.
Proof. unfold has_empty_axis. by destruct (rows d), (columns d). Qed.

Lemma DataFrame_values_length d : length (DataFrame_values d) = length (rows d).
Proof. unfold DataFrame_values. by rewrite length_fmap. Qed.

Lemma DataFrame_values_lookup d i r :
  rows d !! i = Some r → DataFrame_values d !! i = Some (as_array d <$> r).
Proof. intros Hr. unfold DataFrame_values. by rewrite list_lookup_fmap, Hr. Qed.

(** Where no cell is converted, [df.values] is the stored rows. *)
Lemma DataFrame_values_as_is d : handed_as_is d → DataFrame_values d = rows d.
Proof.
  intros Hd. unfold DataFrame_values.
  rewrite <- (list_fmap_id (rows d)) at 2. apply list_fmap_ext.
  intros i r Hr. apply Hd. by eapply list_elem_of_lookup_2.
Qed.

Lemma as_array_id_handed d : (∀ d' c, as_array d' c = c) → handed_as_is d.
Proof.
  intros Hid r _. apply map_eq. intros c. rewrite lookup_fmap.
  destruct (r !! c) as [x|]; simpl; [|done]. by rewrite Hid.
Qed.

(** The Series that [apply] returns has one entry per row. *)
Lemma DataFrame_apply_length func d s :
  DataFrame_apply func d = Ok s → length s = length (rows d).
Proof.
  unfold DataFrame_apply. destruct (has_empty_axis d).
  - apply apply_empty_result_length.
  - destruct (mapM func _) as [k|e] eqn:Hk; [|done]. simpl. intros [= <-].
    rewrite <- (Forall2_length _ _ _ (construct_series_isnull k)).
    by rewrite (mapM_result_length _ _ _ Hk), DataFrame_values_length.
Qed.

(** On a frame with rows and columns, [apply] is [func] on the rows of
    [df.values], in order, gathered in a Series. *)
Lemma DataFrame_apply_rows func d k :
  rows d ≠ [] → columns d ≠ [] →
  mapM func (DataFrame_values d) = Ok k →
  DataFrame_apply func d = Ok (construct_series k).
Proof.
  intros Hr Hc Hk. unfold DataFrame_apply.
  by rewrite (has_empty_axis_false _ Hr Hc), Hk.
Qed.

End apply_facts.

(** Frames of text, as the store data are read: the common dtype is
    [object] and no cell is converted, neither in [df.values] nor in the
    Series of results. *)
Lemma text_as_array_isnull (d : DataFrame (option string)) (c : option string) :
  isnull c = isnull c.
Proof. reflexivity. Qed.

Lemma text_construct_series_isnull (l : list (option string)) :
  Forall2 (λ c c', isnull c' = isnull c) l l.
Proof. by apply Forall_Forall2_diag, Forall_true. Qed.

Lemma probe_empty_result_length {V} func (d : DataFrame (option V)) s :
  probe_empty_result func d = Ok s → length s = length (rows d).
Proof.
  unfold probe_empty_result. destruct (func _) as [v|e].
  - intros [= <-]. apply length_replicate.
  - destruct (columns d) as [|c [|??]]; [done| |done].
    intros [= <-]. apply length_fmap.
Qed.

#[export] Instance text_frames : Pandas string := {|
  as_array := λ _ c, c;
  as_array_isnull := text_as_array_isnull;
  construct_series := λ l, l;
  construct_series_isnull := text_construct_series_isnull;
  apply_empty_result := probe_empty_result;
  apply_empty_result_length := probe_empty_result_length
|}.

(** Frames of numbers: the laws of the conversions. *)
Lemma number_as_array_isnull (d : DataFrame (option number)) (c : option number) :
  isnull (number_as_array d c) = isnull c.
Proof. unfold number_as_array. by destruct (all_int64 d), c. Qed.

Lemma number_construct_series_isnull (l : list (option number)) :
  Forall2 (λ c c', isnull c' = isnull c) l (number_construct_series l).
Proof.
  unfold number_construct_series. destruct (forallb is_int64 l).
  - by apply Forall_Forall2_diag, Forall_true.
  - apply Forall2_fmap_r, Forall_Forall2_diag, Forall_true. by intros [?|].
Qed.

#[export] Instance number_frames : Pandas number := {|
  as_array := number_as_array;
  as_array_isnull := number_as_array_isnull;
  construct_series := number_construct_series;
  construct_series_isnull := number_construct_series_isnull;
  apply_empty_result := probe_empty_result;
  apply_empty_result_length := probe_empty_result_length
|}.


Section processor_facts.
  Context `{Countable V} `{!Pandas V}.
  Implicit Types (self : DataProcessor.state V) (r : gmap string (option V)).

(** The methods keep the processor's table well formed, and the tables
    they return are well formed. *)
Lemma apply_function_wf func (column : string) self :
  wf (DataProcessor.df self) →
  wf (DataProcessor.df (DataProcessor.apply_function func column self).2).
Proof.
  intros Hwf. unfold DataProcessor.apply_function.
  destruct (DataFrame_apply func _); [|done]. by apply wf_setitem.
Qed.

Lemma replace_values_wf (column : string) value_map self :
  wf (DataProcessor.df self) →
  wf (DataProcessor.df (DataProcessor.replace_values column value_map self).2).
Proof.
  intros Hwf. unfold DataProcessor.replace_values.
  destruct (getitem _ _); [|done]. by apply wf_setitem.
Qed.

Lemma filter_by_country_wf (country_code : V) self out :
  wf (DataProcessor.df self) →
  (DataProcessor.filter_by_country country_code self).1 = Ok out → wf out.
Proof.
  intros Hwf. unfold DataProcessor.filter_by_country. simpl.
  destruct (getitem _ _); [|done]. simpl. intros [= <-]. by apply wf_boolean_index.
Qed.

(** A column that the table lacks is a [KeyError], and the processor is
    left as it was. *)
Lemma replace_values_missing_column (column : string) value_map self :
  column ∉ columns (DataProcessor.df self) →
  DataProcessor.replace_values column value_map self = (Raise (KeyError column), self).
Proof.
  intros Hc. unfold DataProcessor.replace_values. by rewrite (getitem_raise _ _ Hc).
Qed.

Lemma filter_by_country_missing_column (country_code : V) self :
  "Country" ∉ columns (DataProcessor.df self) →
  DataProcessor.filter_by_country country_code self = (Raise (KeyError "Country"), self).
Proof.
  intros Hc. unfold DataProcessor.filter_by_country. by rewrite (getitem_raise _ _ Hc).
Qed.

(** An exception of [apply_function] leaves the processor as it was. *)
Lemma apply_function_raise func (column : string) self e self' :
  DataProcessor.apply_function func column self = (Raise e, self') → self' = self.
Proof.
  unfold DataProcessor.apply_function.
  destruct (DataFrame_apply func _); [done|]. by intros [= -> ->].
Qed.

(** C4.  [filter_by_country] returns a table that holds exactly the rows
    whose Country cell equals the code, and leaves the processor, and so
    its table's rows and their contents, as they were before the call. *)
Theorem filter_by_country_nondestructive self (country_code : V) :
  "Country" ∈ columns (DataProcessor.df self) →
  ∃ out, DataProcessor.filter_by_country country_code self = (Ok out, self) ∧
         ∀ r, r ∈ rows out ↔
              r ∈ rows (DataProcessor.df self) ∧ cell r "Country" = Some country_code.
Proof.
  intros Hc. unfold DataProcessor.filter_by_country.
  rewrite (getitem_ok _ _ Hc). simpl. eexists. split; [done|].
  intros r. simpl. rewrite mask_rows_Series_eq, list_elem_of_filter. tauto.
Qed.

(** C10.  The result of [filter_by_country] has the columns of the input
    and, as its rows, the rows of the input whose Country cell equals the
    code, whole and in their original order. *)
Theorem filter_by_country_subsequence self (country_code : V) :
  "Country" ∈ columns (DataProcessor.df self) →
  ∃ out, (DataProcessor.filter_by_country country_code self).1 = Ok out ∧
         columns out = columns (DataProcessor.df self) ∧
         rows out = filter (λ r, cell r "Country" = Some country_code)
                           (rows (DataProcessor.df self)) ∧
         rows out `sublist_of` rows (DataProcessor.df self).
Proof.
  intros Hc. unfold DataProcessor.filter_by_country.
  rewrite (getitem_ok _ _ Hc). simpl. eexists. split; [done|]. simpl.
  rewrite mask_rows_Series_eq. split_and!; [done..|apply sublist_filter].
Qed.

(** C9 (amended).  On a table with rows and columns, when [func] returns
    on every row as [apply] hands it over, [apply_function] returns and
    leaves a table with as many rows, in the same order: row by row, the
    target column holds the entry of the Series built from the results of
    [func] on the handed rows, null exactly when that result is null, and
    every other column is unchanged.  Where the table's cells are handed
    over as stored and the results are stored as returned, the target
    column holds [func] of the row as it was before the call. *)
Theorem apply_function_frame
    (func : gmap string (option V) → result (option V)) (column : string) self :
  rows (DataProcessor.df self) ≠ [] → columns (DataProcessor.df self) ≠ [] →
  (∀ r, r ∈ DataFrame_values (DataProcessor.df self) → ∃ v, func r = Ok v) →
  ∃ self' s, DataProcessor.apply_function func column self = (Ok (), self') ∧
    DataProcessor.config self' = DataProcessor.config self ∧
    length (rows (DataProcessor.df self')) = length (rows (DataProcessor.df self)) ∧
    (∀ c, c ∈ columns (DataProcessor.df self') ↔
          c ∈ columns (DataProcessor.df self) ∨ c = column) ∧
    mapM func (DataFrame_values (DataProcessor.df self)) = Ok s ∧
    (∀ i r, rows (DataProcessor.df self) !! i = Some r →
      ∃ v v' r', func (as_array (DataProcessor.df self) <$> r) = Ok v ∧
                 s !! i = Some v ∧
                 construct_series s !! i = Some v' ∧
                 isnull v' = isnull v ∧
                 rows (DataProcessor.df self') !! i = Some r' ∧
                 r' !! column = Some v' ∧
                 ∀ c, c ≠ column → r' !! c = r !! c) ∧
    (handed_as_is (DataProcessor.df self) → construct_series s = s →
     ∀ i r, rows (DataProcessor.df self) !! i = Some r →
      ∃ v r', func r = Ok v ∧
              rows (DataProcessor.df self') !! i = Some r' ∧
              r' !! column = Some v ∧
              ∀ c, c ≠ column → r' !! c = r !! c).
Proof.
  intros Hrows Hcols Htotal. unfold DataProcessor.apply_function.
  destruct (mapM_result_total func _ Htotal) as [s Hs].
  rewrite (DataFrame_apply_rows _ _ _ Hrows Hcols Hs).
  pose proof (mapM_result_length _ _ _ Hs) as Hlen.
  rewrite DataFrame_values_length in Hlen.
  pose proof (construct_series_isnull s) as Hseries.
  pose proof (Forall2_length _ _ _ Hseries) as Hlen'.
  assert (∀ i r, rows (DataProcessor.df self) !! i = Some r →
    ∃ v v', func (as_array (DataProcessor.df self) <$> r) = Ok v ∧ s !! i = Some v ∧
            construct_series s !! i = Some v' ∧ isnull v' = isnull v) as Hcell.
  { intros i r Hr.
    destruct (mapM_result_lookup _ _ _ _ _ Hs (DataFrame_values_lookup _ _ _ Hr))
      as (v & Hv & Hsv).
    destruct (Forall2_lookup_l _ _ _ _ _ Hseries Hsv) as (v' & Hv' & Hnull).
    by exists v, v'. }
  eexists _, s. split; [done|]. cbn [DataProcessor.config DataProcessor.df].
  split_and!; [done| |apply columns_setitem|done| |].
  - apply rows_setitem_length. congruence.
  - intros i r Hr. destruct (Hcell i r Hr) as (v & v' & Hv & Hsv & Hv' & Hnull).
    exists v, v', (<[column := v']> r). split_and!; [done..| | |].
    + by apply rows_setitem_lookup.
    + apply lookup_insert_eq.
    + intros c Hne. by apply lookup_insert_ne.
  - intros Hasis Hstored i r Hr.
    destruct (Hcell i r Hr) as (v & v' & Hv & Hsv & Hv' & _).
    rewrite Hstored, Hsv in Hv'. injection Hv' as <-.
    rewrite (Hasis r) in Hv by by eapply list_elem_of_lookup_2.
    exists v, (<[column := v]> r). split_and!; [done| | |].
    + apply rows_setitem_lookup; [done|]. by rewrite Hstored.
    + apply lookup_insert_eq.
    + intros c Hne. by apply lookup_insert_ne.
Qed.





(** C8.  [missing_data] on a well-formed table lists exactly the columns
    that have a null cell, each with its number of null cells: no column
    is listed with a count of zero. *)
Theorem missing_data_spec self :
  wf (DataProcessor.df self) →
  ∃ out, DataProcessor.missing_data self = (Ok out, self) ∧
         ∀ c n, (c, n) ∈ out ↔
                c ∈ columns (DataProcessor.df self) ∧
                n = null_count (DataProcessor.df self) c ∧ 0 < n.
Proof.
  intros Hwf. eexists. split; [reflexivity|]. intros c n.
  unfold Series_positive, DataFrame_sum.
  rewrite list_elem_of_filter, list_elem_of_fmap. cbn [snd]. split.
  - intros (Hpos & c' & Heq & Hc'). injection Heq as -> ->.
    rewrite (isnull_sum_null_count _ _ Hwf Hc') in Hpos |- *. done.
  - intros (Hc & -> & Hpos). split; [done|]. exists c. split; [|done].
    by rewrite <- (isnull_sum_null_count _ _ Hwf Hc).
Qed.

End processor_facts.

(** * Visualizer *)

Section visualizer_facts.
  Context `{Countable V} `{!SortValues V}.
  Implicit Types (df : DataFrame (option V)) (s : list (option V)).

Lemma slice_to_short {A} (n : Z) (l : list A) :
  (0 ≤ n)%Z → length l ≤ Z.to_nat n → slice_to n l = l.
Proof. intros Hn Hlen. unfold slice_to. rewrite decide_True by done. by apply take_ge. Qed.

Lemma value_count_pair (a b : V) :
  a ≠ b → value_count [Some a; Some a; Some b] = [(a, 2); (b, 1)].
Proof.
  intros Hne. unfold value_count. cbn [foldl incr].
  rewrite decide_True by done. cbn [incr]. by rewrite decide_False.
Qed.

(** C6.  For a positive [n], [plot_top_countries] hands to the plot a
    sequence of (value, count) pairs in descending order of count, of
    length min(n, number of distinct countries), each count being the
    value's number of rows; on the column US, US, CN and with n at least
    2 (so with n = 10) the sequence is (US, 2), (CN, 1). *)
Theorem plot_top_countries_spec df (n : Z) s :
  (0 < n)%Z →
  getitem df "Country" = Ok s →
  ∃ top, Visualizer.plot_top_countries df n = Ok (top.*1, top.*2) ∧
         Sorted (λ p q, q.2 ≤ p.2) top ∧
         length top = Z.to_nat n `min` distinct s ∧
         (∀ v c, (v, c) ∈ top → Some v ∈ s ∧ c = row_count v s) ∧
         (∀ a b, a ≠ b → s = [Some a; Some a; Some b] → (2 ≤ n)%Z →
            top = [(a, 2); (b, 1)]).
Proof.
  intros Hn Hs.
  destruct (nlargest_spec n (value_counts s) Hn) as (l & Hperm & Hsorted & Hl).
  exists (take (Z.to_nat n) l).
  assert (length (take (Z.to_nat n) l) = Z.to_nat n `min` distinct s) as Hlen.
  { by rewrite length_take, Hperm, value_counts_length. }
  split_and!.
  - unfold Visualizer.plot_top_countries, Visualizer.plot_top_n.
    rewrite Hs. simpl. rewrite Hl.
    rewrite !slice_to_short; [done|lia|rewrite length_fmap; lia|lia|rewrite length_fmap; lia].
  - by apply sorted_desc_take.
  - done.
  - intros v c Hin. apply elem_of_value_counts. rewrite <- Hperm.
    apply (subseteq_take (Z.to_nat n)), Hin.
  - intros a b Hne -> Hn2.
    assert (value_counts [Some a; Some a; Some b] = [(a, 2); (b, 1)]) as Hvc.
    { apply sorted_desc_perm_pair; [simpl; lia| |apply value_counts_sorted].
      unfold value_counts. by rewrite sort_values_perm, value_count_pair. }
    rewrite Hvc in Hperm. apply sorted_desc_perm_pair in Hperm as ->; [|simpl; lia|done].
    apply take_ge. simpl. lia.
Qed.

End visualizer_facts.

(** * The scenarios *)



(** A table built from lines as long as the header is well formed. *)
Lemma wf_table {V} (header : list string) (lines : list (list (option V))) :
  NoDup header →
  Forall (λ cells, length cells = length header) lines →
  wf (table header lines).
Proof.
  intros Hnd Hlines. split; [done|]. simpl.
  apply Forall_fmap. eapply Forall_impl; [exact Hlines|].
  intros cells Hlen c. simpl. clear Hnd Hlines.
  revert cells Hlen. induction header as [|h header IH]; intros [|x cells] Hlen;
    simplify_eq/=.
  - rewrite lookup_empty, elem_of_nil. split; [by intros [??]|done].
  - rewrite lookup_insert_is_Some, elem_of_cons, (IH cells) by done.
    destruct (decide (h = c)); intuition (simplify_eq; auto).
Qed.

(** The end-to-end scenario, with the stable sort as [sort_values]. *)
Example analyze_data_three_stores :
  Analyzer.analyze_data three_stores = Ok (Analyzer.mkAnalysis 3 2 "US" "Seattle").
Proof. vm_compute. reflexivity. Qed.

Lemma fill_city_spec_witness : fill_city wa_row = Ok (Some "WA").
Proof.
  destruct (fill_city_spec wa_row None (Some "WA")) as [Hfill _];
    [reflexivity|reflexivity|exact Hfill].
Defined.

Lemma analyze_data_summary_witness :
  ∃ a, Analyzer.analyze_data three_stores = Ok a ∧
       Analyzer.total_stores a = distinct [Some "1"; Some "2"; Some "3"] ∧
       Analyzer.total_countries a = distinct [Some "US"; Some "US"; Some "CN"] ∧
       most_frequent (Analyzer.top_country a) [Some "US"; Some "US"; Some "CN"] ∧
       most_frequent (Analyzer.top_city a) [Some "Seattle"; Some "Seattle"; Some "Beijing"].
Proof.
  destruct (analyze_data_summary three_stores
              [Some "1"; Some "2"; Some "3"]
              [Some "US"; Some "US"; Some "CN"]
              [Some "Seattle"; Some "Seattle"; Some "Beijing"])
    as (a & Ha & Hs & Hc & Htc & Htt & _).
  - vm_compute. reflexivity.
  - vm_compute. reflexivity.
  - vm_compute. reflexivity.
  - exists "US". left.
  - exists "Seattle". left.
  - exists a. split_and!; assumption.
Defined.

(** Counterexample to C1 as stated: a table of one row whose country is
    blank; whatever the sorting routine, [analyze_data] returns nothing. *)
Lemma analyze_data_blank_country :
  length (rows blank_country) = 1 ∧
  ¬ ∃ (routine : SortValues string) a,
      @Analyzer.analyze_data string _ routine blank_country = Ok a.
Proof.
  split; [reflexivity|]. intros (routine & a & Ha).
  rewrite (analyze_data_no_value blank_country [Some "1"] [None] [Some "Seattle"])
    in Ha; [done|vm_compute; reflexivity..|].
  left. intros v Hv. by apply list_elem_of_singleton in Hv.
Qed.

Lemma analyze_data_outcome_witness : ∃ a, Analyzer.analyze_data three_stores = Ok a.
Proof.
  destruct (analyze_data_outcome three_stores
              [Some "1"; Some "2"; Some "3"]
              [Some "US"; Some "US"; Some "CN"]
              [Some "Seattle"; Some "Seattle"; Some "Beijing"])
    as (_ & _ & Hok).
  - vm_compute. reflexivity.
  - vm_compute. reflexivity.
  - vm_compute. reflexivity.
  - apply Hok; [exists "US"|exists "Seattle"]; left.
Defined.

(** Counterexample to C2 as stated: a table of two rows that hold no
    city; whatever the sorting routine, [analyze_data] does not return. *)
Lemma analyze_data_blank_cities :
  length (rows blank_cities) = 2 ∧
  ¬ ∃ (routine : SortValues string) a,
      @Analyzer.analyze_data string _ routine blank_cities = Ok a.
Proof.
  split; [reflexivity|]. intros (routine & a & Ha).
  rewrite (analyze_data_no_value blank_cities
             [Some "1"; Some "2"] [Some "EG"; Some "EG"] [None; None])
    in Ha; [done|vm_compute; reflexivity..|].
  right. intros v Hv. apply elem_of_cons in Hv as [?|Hv]; [done|].
  by apply list_elem_of_singleton in Hv.
Qed.

Lemma filter_by_country_nondestructive_witness :
  ∃ out, DataProcessor.filter_by_country "CN" (processor three_stores)
         = (Ok out, processor three_stores) ∧
         ∀ r, r ∈ rows out ↔ r ∈ rows three_stores ∧ cell r "Country" = Some "CN".
Proof.
  apply (filter_by_country_nondestructive (processor three_stores) "CN").
  compute_done.
Defined.

Lemma filter_by_country_subsequence_witness :
  ∃ out, (DataProcessor.filter_by_country "US" (processor three_stores)).1 = Ok out ∧
         columns out = columns three_stores ∧
         rows out = filter (λ r, cell r "Country" = Some "US") (rows three_stores) ∧
         rows out `sublist_of` rows three_stores.
Proof.
  apply (filter_by_country_subsequence (processor three_stores) "US").
  compute_done.
Defined.

Lemma apply_function_frame_witness :
  ∃ self', DataProcessor.apply_function fill_city "City" (processor missing_city)
           = (Ok (), self') ∧
           length (rows (DataProcessor.df self')) = 2 ∧
           getitem (DataProcessor.df self') "City" = Ok [Some "WA"; Some "Seattle"] ∧
           getitem (DataProcessor.df self') "State/Province" = Ok [Some "WA"; Some "WA"].
Proof.
  destruct (apply_function_frame fill_city "City" (processor missing_city))
    as (self' & s & Hrun & _ & Hlen & _).
  - discriminate.
  - discriminate.
  - apply Forall_forall. repeat constructor; eexists; vm_compute; reflexivity.
  - exists self'. split; [exact Hrun|]. split; [exact Hlen|].
    assert (self' = (DataProcessor.apply_function fill_city "City"
                       (processor missing_city)).2) as -> by (by rewrite Hrun).
    split; vm_compute; reflexivity.
Defined.

(** C9 as first stated fails on a table of numbers.  The one store has no
    city and the state/province 2^53 + 1, kept in an int64 column beside
    the float64 City column: [fill_city] of the stored row is 2^53 + 1,
    but [apply] hands over the row as float64, and the City cell written
    is 2^53, while the State/Province cell stays as it was. *)
Lemma apply_function_converts :
  ∃ r v self' r',
    rows numbered_state = [r] ∧
    fill_city r = Ok v ∧
    v = Some (Int64 9007199254740993) ∧
    DataProcessor.apply_function fill_city "City" (number_processor numbered_state)
    = (Ok (), self') ∧
    rows (DataProcessor.df self') = [r'] ∧
    r' !! "City" = Some (Some (Float64 9007199254740992 0)) ∧
    r' !! "City" ≠ Some v ∧
    r' !! "State/Province" = r !! "State/Province".
Proof.
  eexists _, _, _, _.
  split; [reflexivity|]. split; [vm_compute; reflexivity|]. split; [reflexivity|].
  split; [reflexivity|]. split; [vm_compute; reflexivity|].
  split; [vm_compute; reflexivity|]. split; [|vm_compute; reflexivity].
  vm_compute. discriminate.
Qed.

(** The imputation scenario through [apply_function]: the missing city
    becomes WA, the other city and the other columns stay. *)
Example apply_function_missing_city :
  DataProcessor.apply_function fill_city "City" (processor missing_city)
  = (Ok (),
     processor (table ["Store Number"; "Country"; "City"; "State/Province"]
                  [ [Some "1"; Some "US"; Some "WA"; Some "WA"];
                    [Some "2"; Some "US"; Some "Seattle"; Some "WA"] ])).
Proof. vm_compute. reflexivity. Qed.


Lemma plot_top_countries_spec_witness :
  Visualizer.plot_top_countries three_stores 10 = Ok (["US"; "CN"], [2; 1]).
Proof.
  destruct (plot_top_countries_spec three_stores 10 [Some "US"; Some "US"; Some "CN"])
    as (top & Hrun & _ & _ & _ & Hscenario).
  - lia.
  - vm_compute. reflexivity.
  - rewrite Hrun, (Hscenario "US" "CN"); [reflexivity|done|reflexivity|lia].
Defined.



Lemma missing_data_spec_witness :
  ∃ out, DataProcessor.missing_data (processor missing_city)
         = (Ok out, processor missing_city) ∧
         ∀ c n, (c, n) ∈ out ↔
                c ∈ columns missing_city ∧ n = null_count missing_city c ∧ 0 < n.
Proof.
  apply (missing_data_spec (processor missing_city)).
  apply wf_table; [compute_done|]. repeat constructor.
Defined.

(** On that table only City is reported, with its one null cell. *)
Example missing_data_missing_city :
  (DataProcessor.missing_data (processor missing_city)).1 = Ok [("City", 1)].
Proof. vm_compute. reflexivity. Qed.

(** * Further properties of the processor *)

Section result_order.
  Context {A B : Type}.

(** The exception of a row-wise pass is that of the first element on which
    the function raises. *)
Lemma mapM_result_first_raise (f : A → result B) (l : list A) e :
  mapM f l = Raise e →
  ∃ i x, l !! i = Some x ∧ f x = Raise e ∧
         ∀ j y, j < i → l !! j = Some y → ∃ z, f y = Ok z.
Proof.
  induction l as [|x l IH]; simpl; [done|].
  destruct (f x) as [y|e'] eqn:Hx; simpl.
  - destruct (mapM f l) as [k|e']; simpl; [done|].
    intros [= ->]. destruct IH as (i & x' & Hi & Hx' & Hbefore); [done|].
    exists (S i), x'. split_and!; [done..|].
    intros [|j] y' Hj; simpl.
    + intros [= <-]. eauto.
    + intros Hy'. apply (Hbefore j); [lia|done].
  - intros [= ->]. exists 0, x. split_and!; [done..|]. intros j y Hj. lia.
Qed.

(** A pass that has returned returns the same again on arguments adjusted
    by its own results, when the function is stable under the adjustment. *)
Lemma mapM_result_zip_with (f : A → result B) (g : A → B → A) (l : list A) (k : list B) :
  (∀ x y, f x = Ok y → f (g x y) = Ok y) →
  mapM f l = Ok k → mapM f (zip_with g l k) = Ok k.
Proof.
  intros Hstable. revert k. induction l as [|x l IH]; intros k; simpl.
  - by intros [= <-].
  - destruct (f x) as [y|e] eqn:Hx; simpl; [|done].
    destruct (mapM f l) as [k'|e] eqn:Hl; simpl; [|done].
    intros [= <-]. simpl. rewrite (Hstable _ _ Hx). simpl.
    by rewrite (IH k').
Qed.

End result_order.

Section fill_city_facts.
  Context {V : Type}.
  Implicit Types (row r : gmap string (option V)).

(** [fill_city] by cases on what the row holds. *)
Lemma fill_city_eval row :
  fill_city row =
  match row !! "City" with
  | None => Raise (KeyError "City")
  | Some (Some v) => Ok (Some v)
  | Some None =>
      match row !! "State/Province" with
      | Some state => Ok state
      | None => Raise (KeyError "State/Province")
      end
  end.
Proof.
  unfold fill_city, row_getitem.
  destruct (row !! "City") as [[v|]|] eqn:Hcity; simpl; by rewrite ?Hcity.
Qed.

Lemma fill_city_stable row v :
  fill_city row = Ok v → fill_city (<["City" := v]> row) = Ok v.
Proof.
  rewrite !fill_city_eval, lookup_insert_eq, lookup_insert_ne by done.
  destruct (row !! "City") as [[w|]|]; [by intros [= <-]| |done].
  destruct (row !! "State/Province") as [state|] eqn:Hstate; [|done].
  intros [= <-]. by destruct state.
Qed.

(** X2.  [fill_city] raises exactly when the row has no City entry, or
    has a null City and no State/Province entry; the exception is the
    [KeyError] of the label that is missing. *)
Theorem fill_city_raise row e :
  fill_city row = Raise e ↔
  (row !! "City" = None ∧ e = KeyError "City") ∨
  (row !! "City" = Some None ∧ row !! "State/Province" = None ∧
   e = KeyError "State/Province").
Proof.
  rewrite fill_city_eval.
  destruct (row !! "City") as [[v|]|].
  - split; [done|]. by intros [[? _]|[? _]].
  - destruct (row !! "State/Province") as [state|].
    + split; [done|]. by intros [[? _]|(_ & ? & _)].
    + split; [intros [= <-]; by right|]. by intros [[? _]|(_ & _ & ->)].
  - split; [intros [= <-]; by left|]. by intros [[_ ->]|[? _]].
Qed.

End fill_city_facts.

Section more_frame_facts.
  Context `{Countable V}.
  Implicit Types (d : DataFrame (option V)) (r : gmap string (option V))
    (s : list (option V)) (c : string).

Lemma wf_row_lookup d r c :
  wf d → r ∈ rows d → c ∈ columns d → r !! c = Some (cell r c).
Proof.
  intros [_ Hrows] Hr Hc. rewrite Forall_forall in Hrows.
  destruct (proj2 (Hrows r Hr c) Hc) as [x Hx]. unfold cell. by rewrite Hx.
Qed.

Lemma zip_with_insert_fmap (l : list (gmap string (option V))) c
    (f : gmap string (option V) → option V) :
  zip_with (λ r v, <[c := v]> r) l (f <$> l) = (λ r, <[c := f r]> r) <$> l.
Proof. induction l as [|r l IH]; [done|]. rewrite !fmap_cons. cbn [zip_with]. by rewrite IH. Qed.

Lemma Series_replace_cells (value_map : gmap (option V) (option V))
    (l : list (gmap string (option V))) c :
  Series_replace value_map ((λ r, cell r c) <$> l)
  = (λ r, match value_map !! cell r c with Some new => new | None => cell r c end) <$> l.
Proof. unfold Series_replace. by rewrite <- list_fmap_compose. Qed.

(** Assigning to a column the Series it already holds changes nothing. *)
Lemma setitem_id d c :
  wf d → c ∈ columns d → setitem d c ((λ r, cell r c) <$> rows d) = d.
Proof.
  intros Hwf Hc. destruct d as [cols l]. unfold setitem. simpl in *. f_equal.
  - by rewrite decide_True.
  - rewrite (zip_with_insert_fmap l c (λ r, cell r c)). rewrite <- (list_fmap_id l) at 2.
    apply list_fmap_ext. intros i r Hr. simpl.
    apply insert_id, (wf_row_lookup _ _ _ Hwf); [|done].
    by apply list_elem_of_lookup_2 in Hr.
Qed.

(** Assigning a column does not change what is read from another. *)
Lemma getitem_setitem_ne d c c' s :
  c ≠ c' → length s = length (rows d) → getitem (setitem d c s) c' = getitem d c'.
Proof.
  intros Hne Hlen. unfold getitem.
  destruct (decide (c' ∈ columns d)) as [Hin|Hin].
  - rewrite decide_True by (apply columns_setitem; auto). f_equal. simpl.
    revert s Hlen. induction (rows d) as [|r l IH]; intros [|v s] ?; simplify_eq/=; [done|].
    by rewrite cell_insert_ne, IH.
  - rewrite decide_False; [done|]. rewrite columns_setitem. intros [?|?]; auto.
Qed.

Lemma mapM_result_fmap {A B} (f : A → result B) (g : A → B) (l : list A) :
  (∀ x, x ∈ l → f x = Ok (g x)) → mapM f l = Ok (g <$> l).
Proof.
  induction l as [|x l IH]; intros Hf; simpl; [done|].
  rewrite (Hf x) by left. simpl. rewrite IH; [done|].
  intros x' Hx'. apply Hf. by right.
Qed.

Lemma length_filter_fmap_iff {A B} (P : B → Prop) (Q : A → Prop)
    `{∀ x, Decision (P x)} `{∀ x, Decision (Q x)} (h : A → B) (l : list A) :
  (∀ x, P (h x) ↔ Q x) → length (filter P (h <$> l)) = length (filter Q l).
Proof.
  intros HPQ. induction l as [|x l IH]; [done|].
  rewrite fmap_cons, !filter_cons.
  destruct (decide (P (h x))) as [HP|HP], (decide (Q x)) as [HQ|HQ]; simpl;
    rewrite ?IH; try done; by apply HPQ in HP || apply HPQ in HQ.
Qed.

Lemma mapM_result_fmap_l {A A' B} (f : A' → result B) (h : A → A') (g : A → B)
    (l : list A) :
  (∀ x, x ∈ l → f (h x) = Ok (g x)) → mapM f (h <$> l) = Ok (g <$> l).
Proof.
  induction l as [|x l IH]; intros Hf; [done|].
  rewrite !fmap_cons. simpl. rewrite (Hf x) by left. simpl. rewrite IH; [done|].
  intros x' Hx'. apply Hf. by right.
Qed.

Lemma length_filter_Forall2 {A B} (P : A → Prop) (Q : B → Prop)
    `{∀ x, Decision (P x)} `{∀ y, Decision (Q y)} (l : list A) (k : list B) :
  Forall2 (λ x y, Q y ↔ P x) l k → length (filter Q k) = length (filter P l).
Proof.
  induction 1 as [|x y l k Hxy _ IH]; [done|].
  rewrite !filter_cons.
  destruct (decide (Q y)) as [HQ|HQ], (decide (P x)) as [HP|HP]; simpl;
    rewrite ?IH; try done; by apply Hxy in HQ || apply Hxy in HP.
Qed.

Lemma Forall2_zip_with_insert {B} (P : gmap string (option V) → B → Prop)
    (l : list (gmap string (option V))) (k : list B) (g : B → option V) c :
  Forall2 P l k →
  Forall2 (λ r r', ∃ v, P r v ∧ r' = <[c := g v]> r) l
          (zip_with (λ r v, <[c := g v]> r) l k).
Proof. induction 1; simpl; constructor; eauto. Qed.

Lemma length_filter_impl {A} (P Q : A → Prop)
    `{∀ x, Decision (P x)} `{∀ x, Decision (Q x)} (l : list A) :
  (∀ x, P x → Q x) → length (filter P l) ≤ length (filter Q l).
Proof.
  intros HPQ. induction l as [|x l IH]; [done|].
  rewrite !filter_cons.
  destruct (decide (P x)) as [HP|HP], (decide (Q x)) as [HQ|HQ]; simpl;
    try lia. by apply HPQ in HP.
Qed.

Lemma length_filter_cell (l : list (gmap string (option V))) c (v : V) :
  length (filter (λ r, cell r c = Some v) l) = row_count v ((λ r, cell r c) <$> l).
Proof.
  unfold row_count. symmetry. by apply length_filter_fmap_iff.
Qed.

Lemma lookup_fromkeys_elem {A} (keys : list (option V)) (value : A) k :
  k ∈ keys → fromkeys keys value !! k = Some value.
Proof.
  unfold fromkeys. induction keys as [|k' keys IH]; [by intros ?%elem_of_nil|].
  intros Hk. rewrite fmap_cons. cbn [list_to_map foldr fst snd].
  destruct (decide (k' = k)) as [->|Hne]; [apply lookup_insert_eq|].
  rewrite lookup_insert_ne by done. apply IH.
  by apply elem_of_cons in Hk as [->|?].
Qed.

Lemma Series_replace_constant (value_map : gmap (option V) (option V)) s value :
  (∀ old, old ∈ s → value_map !! old = Some value) →
  Series_replace value_map s = replicate (length s) value.
Proof.
  unfold Series_replace. induction s as [|x s IH]; intros Hkey; [done|].
  rewrite fmap_cons, (Hkey x) by left. simpl. f_equal.
  apply IH. intros x' ?. apply Hkey. by right.
Qed.

Lemma sum_true_le (l : list (gmap string bool)) c :
  sum_list ((λ r : gmap string bool, match r !! c with Some true => 1 | _ => 0 end) <$> l)
  ≤ length l.
Proof.
  induction l as [|r l IH]; [done|]. rewrite fmap_cons. simpl.
  destruct (r !! c) as [[]|]; lia.
Qed.

End more_frame_facts.

Section more_processor_facts.
  Context `{Countable V} `{!Pandas V}.
  Implicit Types (self : DataProcessor.state V) (r : gmap string (option V)).

Lemma apply_function_run func (column : string) self s :
  DataFrame_apply func (DataProcessor.df self) = Ok s →
  DataProcessor.apply_function func column self
  = (Ok (), DataProcessor.mkState (DataProcessor.config self)
              (setitem (DataProcessor.df self) column s)).
Proof.
  intros Hs. unfold DataProcessor.apply_function. by rewrite Hs.
Qed.

(** In a well-formed frame a cell of a handed row is the converted cell
    of the stored row. *)
Lemma lookup_handed_row (d : DataFrame (option V)) r (c : string) :
  wf d → r ∈ rows d → c ∈ columns d →
  (as_array d <$> r) !! c = Some (as_array d (cell r c)).
Proof. intros Hwf Hr Hc. by rewrite lookup_fmap, (wf_row_lookup _ _ _ Hwf Hr Hc). Qed.

Lemma as_array_cell_as_is (d : DataFrame (option V)) r (c : string) :
  wf d → handed_as_is d → r ∈ rows d → c ∈ columns d →
  as_array d (cell r c) = cell r c.
Proof.
  intros Hwf Hasis Hr Hc.
  pose proof (lookup_handed_row d r c Hwf Hr Hc) as Hl.
  rewrite (Hasis r Hr), (wf_row_lookup _ _ _ Hwf Hr Hc) in Hl. by injection Hl.
Qed.

Lemma replace_values_run (column : string) value_map self :
  column ∈ columns (DataProcessor.df self) →
  DataProcessor.replace_values column value_map self
  = (Ok (), DataProcessor.mkState (DataProcessor.config self)
              (setitem (DataProcessor.df self) column
                 ((λ r, match value_map !! cell r column with
                        | Some new => new
                        | None => cell r column
                        end) <$> rows (DataProcessor.df self)))).
Proof.
  intros Hc. unfold DataProcessor.replace_values.
  by rewrite (getitem_ok _ _ Hc), Series_replace_cells.
Qed.

(** X1.  [city_null] returns, under the columns of the table, the rows
    whose City is null, whole and in their order, as many as the table
    has null City cells; the processor is unchanged. *)
Theorem city_null_spec self :
  "City" ∈ columns (DataProcessor.df self) →
  ∃ out, DataProcessor.city_null self = (Ok out, self) ∧
         columns out = columns (DataProcessor.df self) ∧
         rows out = filter (λ r, cell r "City" = None) (rows (DataProcessor.df self)) ∧
         length (rows out) = null_count (DataProcessor.df self) "City".
Proof.
  intros Hc. unfold DataProcessor.city_null. rewrite (getitem_ok _ _ Hc). simpl.
  eexists. split; [done|]. simpl. by rewrite mask_rows_Series_isnull.
Qed.

(** X3.  On a well-formed table that has rows and the columns City and
    State/Province, [apply_function(fill_city, 'City')] returns; it keeps
    the columns and the rows' order, changes no cell outside City, and
    leaves a null City exactly in the rows where City and State/Province
    were both null, so never more null cities than before.  Where the
    table's cells are handed over as stored and the results are stored as
    returned, each row's City becomes the old city, or the state/province
    where the city was null. *)
Theorem apply_fill_city self :
  wf (DataProcessor.df self) →
  rows (DataProcessor.df self) ≠ [] →
  "City" ∈ columns (DataProcessor.df self) →
  "State/Province" ∈ columns (DataProcessor.df self) →
  let fill := λ r : gmap string (option V),
    if isnull (cell r "City") then cell r "State/Province" else cell r "City" in
  ∃ self', DataProcessor.apply_function fill_city "City" self = (Ok (), self') ∧
    columns (DataProcessor.df self') = columns (DataProcessor.df self) ∧
    Forall2 (λ r r', (∀ c, c ≠ "City" → r' !! c = r !! c) ∧
                     (cell r' "City" = None ↔
                      cell r "City" = None ∧ cell r "State/Province" = None))
            (rows (DataProcessor.df self)) (rows (DataProcessor.df self')) ∧
    null_count (DataProcessor.df self') "City"
    = length (filter (λ r, cell r "City" = None ∧ cell r "State/Province" = None)
                     (rows (DataProcessor.df self))) ∧
    null_count (DataProcessor.df self') "City" ≤ null_count (DataProcessor.df self) "City" ∧
    (handed_as_is (DataProcessor.df self) →
     construct_series (fill <$> rows (DataProcessor.df self))
     = fill <$> rows (DataProcessor.df self) →
     rows (DataProcessor.df self')
     = (λ r, <["City" := fill r]> r) <$> rows (DataProcessor.df self)).
Proof.
  intros Hwf Hrows Hcity Hstate fill.
  set (d := DataProcessor.df self) in *.
  set (handed := λ r : gmap string (option V),
         if isnull (as_array d (cell r "City")) then as_array d (cell r "State/Province")
         else as_array d (cell r "City")).
  assert (mapM fill_city (DataFrame_values d) = Ok (handed <$> rows d)) as Hrun.
  { apply mapM_result_fmap_l. intros r Hr. rewrite fill_city_eval.
    rewrite (lookup_handed_row _ _ _ Hwf Hr Hcity), (lookup_handed_row _ _ _ Hwf Hr Hstate).
    unfold handed. by destruct (as_array d (cell r "City")). }
  assert (columns d ≠ []) as Hcols by (intros Hnil; rewrite Hnil in Hcity; by apply elem_of_nil in Hcity).
  pose proof (DataFrame_apply_rows _ _ _ Hrows Hcols Hrun) as Happly.
  eexists. split; [by apply apply_function_run|].
  cbn [DataProcessor.df]. fold d.
  assert (Forall2 (λ r r', (∀ c, c ≠ "City" → r' !! c = r !! c) ∧
                     (cell r' "City" = None ↔
                      cell r "City" = None ∧ cell r "State/Province" = None))
            (rows d) (rows (setitem d "City" (construct_series (handed <$> rows d)))))
    as Hpair.
  { pose proof (construct_series_isnull (handed <$> rows d)) as Hseries.
    apply Forall2_fmap_l in Hseries.
    apply (Forall2_zip_with_insert _ _ _ (λ v, v) "City") in Hseries.
    cbn [setitem rows]. eapply Forall2_impl; [exact Hseries|].
    intros r r' (v & Hv & ->). simpl in Hv. split.
    - intros c Hne. by apply lookup_insert_ne.
    - rewrite cell_insert. unfold handed in Hv.
      pose proof (as_array_isnull d (cell r "City")) as Hc.
      pose proof (as_array_isnull d (cell r "State/Province")) as Hs.
      destruct (as_array d (cell r "City")), (as_array d (cell r "State/Province")),
        (cell r "City"), (cell r "State/Province"), v; simplify_eq/=;
        split; try done; by intros [??]. }
  assert (null_count (setitem d "City" (construct_series (handed <$> rows d))) "City"
          = length (filter (λ r, cell r "City" = None ∧ cell r "State/Province" = None)
                           (rows d))) as Hcount.
  { unfold null_count. apply length_filter_Forall2.
    eapply Forall2_impl; [exact Hpair|]. by intros r r' [_ ?]. }
  split_and!.
  - simpl. by rewrite decide_True.
  - done.
  - done.
  - rewrite Hcount. apply length_filter_impl. by intros r [??].
  - intros Hasis Hstored.
    assert (handed <$> rows d = fill <$> rows d) as ->.
    { apply list_fmap_ext. intros i r Hr%list_elem_of_lookup_2. unfold handed, fill.
      by rewrite !(as_array_cell_as_is d r _ Hwf Hasis Hr). }
    rewrite Hstored. apply zip_with_insert_fmap.
Qed.

(** X4.  Filling the cities a second time changes nothing, on a table
    with rows and columns whose cells, before and after the first pass,
    are handed over as stored, and whose results are stored as returned:
    the second [apply_function(fill_city, 'City')] returns (or raises) as
    the first did and leaves the table the first one left. *)
Theorem apply_fill_city_twice self :
  let once := (DataProcessor.apply_function fill_city "City" self).2 in
  rows (DataProcessor.df self) ≠ [] →
  columns (DataProcessor.df self) ≠ [] →
  handed_as_is (DataProcessor.df self) →
  handed_as_is (DataProcessor.df once) →
  (∀ s, mapM fill_city (rows (DataProcessor.df self)) = Ok s → construct_series s = s) →
  DataProcessor.apply_function fill_city "City" once
  = DataProcessor.apply_function fill_city "City" self.
Proof.
  intros once Hrows Hcols Hasis Hasis' Hstored. subst once.
  destruct (DataFrame_apply fill_city (DataProcessor.df self)) as [s|e] eqn:Hrun.
  - rewrite (apply_function_run _ _ _ _ Hrun) in Hasis' |- *. cbn [snd] in *.
    pose proof (DataFrame_apply_length _ _ _ Hrun) as Hlen.
    unfold DataFrame_apply in Hrun.
    rewrite (has_empty_axis_false _ Hrows Hcols), (DataFrame_values_as_is _ Hasis) in Hrun.
    destruct (mapM fill_city _) as [k|] eqn:Hk; [|done].
    simpl in Hrun. rewrite (Hstored k eq_refl) in Hrun. injection Hrun as ->.
    cbn [DataProcessor.df] in Hasis'.
    erewrite apply_function_run; cbn [DataProcessor.df DataProcessor.config].
    + by rewrite (setitem_setitem _ _ _ _ Hlen Hlen).
    + unfold DataFrame_apply. rewrite has_empty_axis_false, (DataFrame_values_as_is _ Hasis').
      * simpl. rewrite (mapM_result_zip_with _ _ _ _ fill_city_stable Hk). simpl.
        by rewrite (Hstored s eq_refl).
      * simpl. intros Hnil. apply (f_equal length) in Hnil.
        rewrite length_zip_with_l_eq in Hnil by done. by destruct (rows (DataProcessor.df self)).
      * simpl. case_decide; [done|]. by destruct (columns (DataProcessor.df self)).
  - unfold DataProcessor.apply_function. rewrite Hrun. cbn [snd]. by rewrite Hrun.
Qed.

(** X5.  When [apply_function] raises, the processor is as before the
    call (no row has been written).  On a table with rows and columns the
    exception is the one [func] raises on the first row, in row order and
    as [apply] hands it over, on which it raises; on a table with no row
    or no column it is the exception of the empty-frame path. *)
Theorem apply_function_first_failure func (column : string) self e self' :
  DataProcessor.apply_function func column self = (Raise e, self') →
  self' = self ∧
  if has_empty_axis (DataProcessor.df self)
  then apply_empty_result func (DataProcessor.df self) = Raise e
  else ∃ i r, rows (DataProcessor.df self) !! i = Some r ∧
         func (as_array (DataProcessor.df self) <$> r) = Raise e ∧
         ∀ j r', j < i → rows (DataProcessor.df self) !! j = Some r' →
                 ∃ v, func (as_array (DataProcessor.df self) <$> r') = Ok v.
Proof.
  unfold DataProcessor.apply_function.
  destruct (DataFrame_apply func _) as [s|e'] eqn:Hrun; [done|].
  intros [= -> <-]. split; [done|]. unfold DataFrame_apply in Hrun.
  destruct (has_empty_axis _); [done|].
  destruct (mapM func _) as [k|e'] eqn:Hk; [done|]. simpl in Hrun. injection Hrun as ->.
  destruct (mapM_result_first_raise _ _ _ Hk) as (i & x & Hx & Hraise & Hbefore).
  unfold DataFrame_values in Hx, Hbefore. rewrite list_lookup_fmap in Hx.
  destruct (rows (DataProcessor.df self) !! i) as [r|] eqn:Hr; [|done].
  injection Hx as <-. exists i, r. split_and!; [done..|].
  intros j r' Hj Hr'. apply (Hbefore j); [done|]. by rewrite list_lookup_fmap, Hr'.
Qed.

(** X6.  On a well-formed table, [replace_values] with a dictionary none
    of whose keys occurs in the column (the empty dictionary, for one)
    leaves the processor exactly as it was. *)
Theorem replace_values_no_key (column : string)
    (value_map : gmap (option V) (option V)) self :
  wf (DataProcessor.df self) →
  column ∈ columns (DataProcessor.df self) →
  (∀ r, r ∈ rows (DataProcessor.df self) → value_map !! cell r column = None) →
  DataProcessor.replace_values column value_map self = (Ok (), self).
Proof.
  intros Hwf Hc Hnone. rewrite (replace_values_run _ _ _ Hc).
  destruct self as [cfg d]. cbn [DataProcessor.df DataProcessor.config] in *.
  do 2 f_equal. trans (setitem d column ((λ r, cell r column) <$> rows d));
    [|by apply setitem_id].
  f_equal. apply list_fmap_ext. intros i r Hr. simpl.
  rewrite Hnone; [done|]. by apply list_elem_of_lookup_2 in Hr.
Qed.

(** X7.  The normalisation step of main.py: with the dictionary
    [dict.fromkeys(df[column].unique(), value)], [replace_values] leaves
    [value] in every cell of the column, null cells included. *)
Theorem replace_values_fromkeys_unique (column : string) (value : option V) self s :
  getitem (DataProcessor.df self) column = Ok s →
  ∃ self', DataProcessor.replace_values column (fromkeys (unique s) value) self
           = (Ok (), self') ∧
           getitem (DataProcessor.df self') column
           = Ok (replicate (length (rows (DataProcessor.df self))) value).
Proof.
  intros Hs. pose proof (getitem_length _ _ _ Hs) as Hlen.
  unfold DataProcessor.replace_values. rewrite Hs. eexists. split; [done|].
  cbn [DataProcessor.df].
  assert (Series_replace (fromkeys (unique s) value) s = replicate (length s) value)
    as ->.
  { apply Series_replace_constant. intros c Hc.
    by apply lookup_fromkeys_elem, elem_of_unique. }
  rewrite getitem_setitem by (by rewrite length_replicate). by rewrite Hlen.
Qed.

(** X8.  [filter_by_country] returns as many rows as the Country column
    holds the code; for a code that does not occur this is a table
    without rows, under the same columns, and no error. *)
Theorem filter_by_country_row_count self (country_code : V) countries :
  getitem (DataProcessor.df self) "Country" = Ok countries →
  ∃ out, (DataProcessor.filter_by_country country_code self).1 = Ok out ∧
         columns out = columns (DataProcessor.df self) ∧
         length (rows out) = row_count country_code countries ∧
         (rows out = [] ↔ Some country_code ∉ countries).
Proof.
  intros Hc. unfold DataProcessor.filter_by_country. rewrite Hc. simpl.
  eexists. split; [done|]. simpl.
  unfold getitem in Hc. case_decide; [|done]. injection Hc as <-.
  rewrite mask_rows_Series_eq.
  pose proof (length_filter_cell (rows (DataProcessor.df self)) "Country" country_code)
    as Hlen.
  split_and!; [done..|].
  rewrite <- row_count_pos, <- Hlen.
  destruct (filter _ _); simpl; split; try done; lia.
Qed.


(** X10.  [missing_data] always returns: the labels it lists are columns
    of the table, in the table's column order, and each count is at least
    one and at most the number of rows. *)
Theorem missing_data_bounds self :
  ∃ out, DataProcessor.missing_data self = (Ok out, self) ∧
         out.*1 `sublist_of` columns (DataProcessor.df self) ∧
         ∀ c n, (c, n) ∈ out → 1 ≤ n ≤ length (rows (DataProcessor.df self)).
Proof.
  eexists. split; [reflexivity|]. unfold Series_positive, DataFrame_sum. split.
  - set (f := λ c : string, (c, _)).
    trans (f <$> columns (DataFrame_isnull (DataProcessor.df self))).*1.
    + apply fmap_sublist, sublist_filter.
    + rewrite <- list_fmap_compose. by rewrite list_fmap_id.
  - intros c n [Hpos (c' & Heq & _)%list_elem_of_fmap]%list_elem_of_filter.
    injection Heq as -> ->. cbn [snd] in Hpos. split; [lia|].
    etrans; [apply sum_true_le|]. cbn [DataFrame_isnull rows]. by rewrite length_fmap.
Qed.

End more_processor_facts.

(** * Further properties of the analysis and of the charts *)

Section more_frequency_facts.
  Context `{Countable V}.
  Implicit Types (s : list (option V)) (table : list (V * nat)) (v : V).

Lemma length_unique_le s : length (unique s) ≤ length s.
Proof.
  unfold unique.
  assert (∀ seen, length (foldl (λ seen c, if decide (c ∈ seen) then seen else seen ++ [c])
                           seen s) ≤ length seen + length s) as Hgen.
  { induction s as [|c s IH]; intros seen; simpl; [lia|].
    case_decide.
    - specialize (IH seen). lia.
    - specialize (IH (seen ++ [c])). rewrite length_app in IH. simpl in IH. lia. }
  apply (Hgen []).
Qed.

Lemma length_dropna_le s : length (dropna s) ≤ length s.
Proof. induction s as [|[v|] s IH]; simpl; lia. Qed.

Lemma length_dropna_all s : (∀ c, c ∈ s → c ≠ None) → length (dropna s) = length s.
Proof.
  induction s as [|[v|] s IH]; intros Hall; simpl; [done| |].
  - f_equal. apply IH. intros c ?. apply Hall. by right.
  - by destruct (Hall None); [left|].
Qed.

Lemma distinct_le s : distinct s ≤ length s.
Proof.
  rewrite <- nunique_distinct. unfold nunique.
  etrans; [apply length_dropna_le|apply length_unique_le].
Qed.

Lemma distinct_pos s v : Some v ∈ s → 1 ≤ distinct s.
Proof.
  intros Hv. rewrite <- nunique_distinct. unfold nunique.
  assert (v ∈ dropna (unique s)) as Hin by by rewrite elem_of_dropna, elem_of_unique.
  destruct (dropna (unique s)); [by apply elem_of_nil in Hin|simpl; lia].
Qed.

Lemma distinct_NoDup s :
  NoDup s → (∀ c, c ∈ s → c ≠ None) → distinct s = length s.
Proof.
  intros Hnd Hall. unfold distinct.
  rewrite size_list_to_set by by apply NoDup_dropna.
  by apply length_dropna_all.
Qed.

Lemma distinct_perm s s' : s ≡ₚ s' → distinct s = distinct s'.
Proof.
  intros Hperm. unfold distinct. f_equal. apply set_eq. intros v.
  by rewrite !elem_of_list_to_set, !elem_of_dropna, Hperm.
Qed.

Lemma row_count_perm v s s' : s ≡ₚ s' → row_count v s = row_count v s'.
Proof. intros Hperm. unfold row_count. by rewrite Hperm. Qed.

Lemma most_frequent_perm v s s' : s ≡ₚ s' → most_frequent v s → most_frequent v s'.
Proof.
  intros Hperm [Hin Hmax]. split; [by rewrite <- Hperm|].
  intros w. rewrite <- !(row_count_perm _ _ _ Hperm). apply Hmax.
Qed.

Lemma sum_incr v table : sum_list (incr v table).*2 = S (sum_list table.*2).
Proof.
  induction table as [|[k n] table IH]; [done|]. cbn [incr].
  case_decide; rewrite !fmap_cons; simpl; [done|]. rewrite IH. lia.
Qed.

(** The counters of the counting pass add up to the number of cells that
    hold a value. *)
Lemma value_count_sum s : sum_list (value_count s).*2 = length (dropna s).
Proof.
  unfold value_count.
  assert (∀ table,
    sum_list (foldl (λ table c, match c with Some v => incr v table | None => table end)
                table s).*2 = sum_list table.*2 + length (dropna s)) as Hgen.
  { induction s as [|[v|] s IH]; intros table; simpl; [lia| |apply IH].
    rewrite IH, sum_incr. lia. }
  apply (Hgen []).
Qed.

Lemma sum_counts_perm (l l' : list (V * nat)) :
  l ≡ₚ l' → sum_list l.*2 = sum_list l'.*2.
Proof. induction 1; rewrite ?fmap_cons; simpl; lia. Qed.

Lemma sum_counts_take (n : nat) (l : list (V * nat)) :
  sum_list (take n l).*2 ≤ sum_list l.*2.
Proof.
  revert n. induction l as [|p l IH]; intros [|n]; try (simpl; lia).
  rewrite firstn_cons, !fmap_cons. specialize (IH n). simpl. lia.
Qed.

End more_frequency_facts.

Section more_analyzer_facts.
  Context `{Countable V} `{!SortValues V} `{!Pandas V}.
  Implicit Types (df : DataFrame (option V)) (s : list (option V))
    (self : DataProcessor.state V).

Lemma index0_value_counts_inv s v :
  index0 (value_counts s) = Ok v → most_frequent v s.
Proof.
  destruct (value_counts s) as [|[w n] rest] eqn:Hvc; [done|].
  intros [= ->]. by apply value_counts_head in Hvc as [? _].
Qed.

Lemma analyze_data_inv df a :
  Analyzer.analyze_data df = Ok a →
  ∃ stores countries cities,
    getitem df "Store Number" = Ok stores ∧
    getitem df "Country" = Ok countries ∧
    getitem df "City" = Ok cities ∧
    index0 (value_counts countries) = Ok (Analyzer.top_country a) ∧
    index0 (value_counts cities) = Ok (Analyzer.top_city a) ∧
    Analyzer.total_stores a = nunique stores ∧
    Analyzer.total_countries a = nunique countries.
Proof.
  unfold Analyzer.analyze_data.
  destruct (getitem df "Store Number") as [stores|] eqn:Hs; [simpl|done].
  destruct (getitem df "Country") as [countries|] eqn:Hc; [simpl|done].
  destruct (index0 (value_counts countries)) as [tc|] eqn:Htc; [simpl|done].
  destruct (getitem df "City") as [cities|] eqn:Ht; [simpl|done].
  destruct (index0 (value_counts cities)) as [tt|] eqn:Htt; [simpl|done].
  intros [= <-]. by exists stores, countries, cities.
Qed.

Lemma analyze_data_run df stores countries cities tc tt :
  getitem df "Store Number" = Ok stores →
  getitem df "Country" = Ok countries →
  getitem df "City" = Ok cities →
  index0 (value_counts countries) = Ok tc →
  index0 (value_counts cities) = Ok tt →
  Analyzer.analyze_data df
  = Ok (Analyzer.mkAnalysis (nunique stores) (nunique countries) tc tt).
Proof.
  intros Hs Hc Ht Htc Htt. unfold Analyzer.analyze_data.
  rewrite Hs, Hc. simpl. rewrite Htc. simpl. rewrite Ht. simpl. by rewrite Htt.
Qed.

(** X11.  The errors of [analyze_data] follow the order in which the
    dictionary is built: a missing Store Number column is reported first,
    then a missing Country column; with both present and City missing,
    the call raises [KeyError] for City when some country is known and
    [IndexError] when none is, the City column not being reached. *)
Theorem analyze_data_errors df :
  ("Store Number" ∉ columns df →
     Analyzer.analyze_data df = Raise (KeyError "Store Number")) ∧
  ("Store Number" ∈ columns df → "Country" ∉ columns df →
     Analyzer.analyze_data df = Raise (KeyError "Country")) ∧
  (∀ countries,
     "Store Number" ∈ columns df → getitem df "Country" = Ok countries →
     "City" ∉ columns df →
     ((∃ v, Some v ∈ countries) → Analyzer.analyze_data df = Raise (KeyError "City")) ∧
     ((∀ v, Some v ∉ countries) → Analyzer.analyze_data df = Raise IndexError)).
Proof.
  unfold Analyzer.analyze_data. split_and!.
  - intros Hs. by rewrite (getitem_raise _ _ Hs).
  - intros Hs Hc. by rewrite (getitem_ok _ _ Hs), (getitem_raise _ _ Hc).
  - intros countries Hs Hc Ht. rewrite (getitem_ok _ _ Hs), Hc. simpl. split.
    + intros (tc & -> & _)%index0_value_counts_ok. simpl.
      by rewrite (getitem_raise _ _ Ht).
    + intros Hnone. by rewrite (index0_value_counts_raise _ Hnone).
Qed.

(** X12.  When [analyze_data] returns, the number of stores is at most
    the number of rows and the number of countries lies between one and
    the number of rows; the top country and the top city each occur in
    at least one row. *)
Theorem analyze_data_bounds df a countries cities :
  Analyzer.analyze_data df = Ok a →
  getitem df "Country" = Ok countries →
  getitem df "City" = Ok cities →
  Analyzer.total_stores a ≤ length (rows df) ∧
  1 ≤ Analyzer.total_countries a ≤ length (rows df) ∧
  1 ≤ row_count (Analyzer.top_country a) countries ∧
  1 ≤ row_count (Analyzer.top_city a) cities.
Proof.
  intros (stores & countries' & cities' & Hs & Hc & Ht & Htc & Htt & -> & ->)
    %analyze_data_inv Hc' Ht'.
  rewrite Hc in Hc'. rewrite Ht in Ht'. injection Hc' as ->. injection Ht' as ->.
  rewrite !nunique_distinct.
  apply index0_value_counts_inv in Htc as [Htc _], Htt as [Htt _].
  pose proof (getitem_length _ _ _ Hs) as Hls.
  pose proof (getitem_length _ _ _ Hc) as Hlc.
  pose proof (distinct_le stores). pose proof (distinct_le countries).
  pose proof (distinct_pos _ _ Htc).
  apply row_count_pos in Htc, Htt. lia.
Qed.

(** X13.  When no store number is missing and none is repeated, the
    number of stores that [analyze_data] returns is the number of rows. *)
Theorem analyze_data_unique_stores df a stores :
  Analyzer.analyze_data df = Ok a →
  getitem df "Store Number" = Ok stores →
  NoDup stores →
  (∀ c, c ∈ stores → c ≠ None) →
  Analyzer.total_stores a = length (rows df).
Proof.
  intros (stores' & ? & ? & Hs & _ & _ & _ & _ & -> & _)%analyze_data_inv Hs' Hnd Hall.
  rewrite Hs in Hs'. injection Hs' as ->.
  rewrite nunique_distinct, (distinct_NoDup _ Hnd Hall).
  by apply getitem_length in Hs.
Qed.

(** X14.  [replace_values] on a column other than Store Number, Country
    and City does not change what [analyze_data] returns or raises (as
    with the brand normalisation that main.py runs before the analysis). *)
Theorem analyze_data_replace_frame (column : string)
    (value_map : gmap (option V) (option V)) self :
  column ≠ "Store Number" → column ≠ "Country" → column ≠ "City" →
  Analyzer.analyze_data
    (DataProcessor.df (DataProcessor.replace_values column value_map self).2)
  = Analyzer.analyze_data (DataProcessor.df self).
Proof.
  intros Hs Hc Ht.
  destruct (decide (column ∈ columns (DataProcessor.df self))) as [Hin|Hin].
  - rewrite (replace_values_run _ _ _ Hin). cbn [snd DataProcessor.df].
    unfold Analyzer.analyze_data.
    by rewrite !getitem_setitem_ne by (done || by rewrite length_fmap).
  - by rewrite (replace_values_missing_column _ _ _ Hin).
Qed.

(** X15.  Filling the cities never spoils the analysis: when
    [analyze_data] returns on the table, it returns on the table left by
    [apply_function(fill_city, 'City')], with the same number of stores,
    the same number of countries and the same top country. *)
Theorem analyze_data_after_fill self a :
  Analyzer.analyze_data (DataProcessor.df self) = Ok a →
  ∃ a', Analyzer.analyze_data
          (DataProcessor.df (DataProcessor.apply_function fill_city "City" self).2)
        = Ok a' ∧
        Analyzer.total_stores a' = Analyzer.total_stores a ∧
        Analyzer.total_countries a' = Analyzer.total_countries a ∧
        Analyzer.top_country a' = Analyzer.top_country a.
Proof.
  intros Ha.
  destruct (DataFrame_apply fill_city (DataProcessor.df self)) as [s|e] eqn:Hrun.
  - rewrite (apply_function_run _ _ _ _ Hrun). cbn [snd DataProcessor.df].
    pose proof (DataFrame_apply_length _ _ _ Hrun) as Hlen.
    apply analyze_data_inv in Ha
      as (stores & countries & cities & Hs & Hc & Ht & Htc & Htt & Hns & Hnc).
    assert (∃ w, Some w ∈ s) as Hsome.
    { apply index0_value_counts_inv in Htt as [Hin _].
      unfold getitem in Ht. case_decide as Hcity; [|done]. injection Ht as <-.
      apply list_elem_of_fmap in Hin as (r & Hcell & Hr).
      apply list_elem_of_lookup in Hr as [i Hi].
      unfold DataFrame_apply in Hrun. rewrite has_empty_axis_false in Hrun.
      - destruct (mapM fill_city _) as [k|] eqn:Hk; [|done].
        simpl in Hrun. injection Hrun as <-.
        destruct (mapM_result_lookup _ _ _ _ _ Hk (DataFrame_values_lookup _ _ _ Hi))
          as (v & Hv & Hkv).
        destruct (Forall2_lookup_l _ _ _ _ _ (construct_series_isnull k) Hkv)
          as (v' & Hv' & Hnull).
        rewrite fill_city_eval, lookup_fmap in Hv. unfold cell in Hcell.
        destruct (r !! "City") as [[w|]|]; simplify_eq/=.
        pose proof (as_array_isnull (DataProcessor.df self) (Some (Analyzer.top_city a)))
          as Hw.
        destruct (as_array _ (Some _)) as [w'|]; simplify_eq/=.
        destruct v' as [w''|]; [|done].
        exists w''. by eapply list_elem_of_lookup_2.
      - intros Hnil. by rewrite Hnil in Hi.
      - intros Hnil. rewrite Hnil in Hcity. by apply elem_of_nil in Hcity. }
    destruct (index0_value_counts_ok s Hsome) as (tt & Htt' & _).
    eexists. split.
    + apply (analyze_data_run _ stores countries s); [| | |done..].
      * by rewrite getitem_setitem_ne.
      * by rewrite getitem_setitem_ne.
      * by apply getitem_setitem.
    + by rewrite Hns, Hnc.
  - unfold DataProcessor.apply_function. rewrite Hrun. cbn [snd].
    by exists a.
Qed.

(** X16.  The analysis does not depend on the order of the rows, up to
    the choice among equally frequent values: on a table with the same
    rows in another order [analyze_data] returns the same two numbers,
    and a top country and a top city that are most frequent in the
    original table as well. *)
Theorem analyze_data_row_order df df' a countries cities :
  columns df' = columns df →
  rows df' ≡ₚ rows df →
  Analyzer.analyze_data df = Ok a →
  getitem df "Country" = Ok countries →
  getitem df "City" = Ok cities →
  ∃ a', Analyzer.analyze_data df' = Ok a' ∧
        Analyzer.total_stores a' = Analyzer.total_stores a ∧
        Analyzer.total_countries a' = Analyzer.total_countries a ∧
        most_frequent (Analyzer.top_country a') countries ∧
        most_frequent (Analyzer.top_city a') cities.
Proof.
  intros Hcols Hperm
    (stores & countries' & cities' & Hs & Hc & Ht & Htc & Htt & Hns & Hnc)%analyze_data_inv
    Hc' Ht'.
  rewrite Hc in Hc'. rewrite Ht in Ht'. injection Hc' as ->. injection Ht' as ->.
  assert (∀ c s, getitem df c = Ok s → ∃ s', getitem df' c = Ok s' ∧ s' ≡ₚ s) as Hget.
  { intros c s. unfold getitem. rewrite Hcols. case_decide; [|done].
    intros [= <-]. eexists. split; [done|]. by rewrite Hperm. }
  destruct (Hget _ _ Hs) as (stores' & Hs' & Hps).
  destruct (Hget _ _ Hc) as (countries' & Hc' & Hpc).
  destruct (Hget _ _ Ht) as (cities' & Ht' & Hpt).
  apply index0_value_counts_inv in Htc, Htt.
  destruct (index0_value_counts_ok countries') as (tc & Htc' & Hmc).
  { exists (Analyzer.top_country a). rewrite Hpc. apply Htc. }
  destruct (index0_value_counts_ok cities') as (tt & Htt' & Hmt).
  { exists (Analyzer.top_city a). rewrite Hpt. apply Htt. }
  eexists. split; [by apply (analyze_data_run _ stores' countries' cities')|].
  simpl. rewrite Hns, Hnc, !nunique_distinct.
  split_and!.
  - by apply distinct_perm.
  - by apply distinct_perm.
  - by apply (most_frequent_perm _ countries').
  - by apply (most_frequent_perm _ cities').
Qed.

End more_analyzer_facts.

Section more_visualizer_facts.
  Context `{Countable V} `{!SortValues V}.
  Implicit Types (df : DataFrame (option V)) (s : list (option V)).

  Local Abbreviation by_count := (λ p q : V * nat, q.2 ≤ p.2).

(** What [plot_top_n] receives from [value_counts().nlargest(n)] and hands
    on, for a positive [n]: the first [n] entries of the counts in some
    descending order. *)
Lemma plot_top_n_nlargest s (n : Z) :
  (0 < n)%Z →
  ∃ l, l ≡ₚ value_counts s ∧ Sorted by_count l ∧
       Visualizer.plot_top_n (nlargest n (value_counts s)) n
       = ((take (Z.to_nat n) l).*1, (take (Z.to_nat n) l).*2).
Proof.
  intros Hn. destruct (nlargest_spec n (value_counts s) Hn) as (l & Hperm & Hsorted & ->).
  exists l. split_and!; [done..|]. unfold Visualizer.plot_top_n.
  rewrite !slice_to_short; [done|lia|rewrite length_fmap, length_take; lia
                           |lia|rewrite length_fmap, length_take; lia].
Qed.

Lemma slice_to_nil {A} (n : Z) : slice_to n (@nil A) = [].
Proof. unfold slice_to. case_decide; apply take_nil. Qed.

Lemma value_counts_no_value s : (∀ v, Some v ∉ s) → value_counts s = [].
Proof.
  intros Hnone. destruct (value_counts s) as [|[v n] rest] eqn:Hvc; [done|].
  assert ((v, n) ∈ value_counts s) as [Hv _]%elem_of_value_counts
    by (rewrite Hvc; left).
  by apply Hnone in Hv.
Qed.

Lemma sorted_by_count_split (l1 l2 : list (V * nat)) p q :
  Sorted by_count (l1 ++ l2) → p ∈ l1 → q ∈ l2 → q.2 ≤ p.2.
Proof.
  intros Hs%Sorted_StronglySorted; [|intros ???; simpl; lia].
  revert Hs. induction l1 as [|x l1 IH]; simpl; intros Hs Hp Hq.
  - by apply elem_of_nil in Hp.
  - apply StronglySorted_inv in Hs as [Hs Hall].
    apply elem_of_cons in Hp as [->|Hp]; [|by apply IH].
    rewrite Forall_forall in Hall. apply Hall. rewrite elem_of_app. by right.
Qed.

(** X17.  [plot_top_cities] and [plot_top_cn_cities] hand the same data
    to the plot: for a positive [n], the cities paired with their numbers
    of rows, in descending order of count, min(n, number of distinct
    cities) of them. *)
Theorem plot_top_cities_spec df (n : Z) s :
  (0 < n)%Z →
  getitem df "City" = Ok s →
  ∃ top, Visualizer.plot_top_cities df n = Ok (top.*1, top.*2) ∧
         Visualizer.plot_top_cn_cities df n = Ok (top.*1, top.*2) ∧
         Sorted (λ p q, q.2 ≤ p.2) top ∧
         length top = Z.to_nat n `min` distinct s ∧
         ∀ v c, (v, c) ∈ top → Some v ∈ s ∧ c = row_count v s.
Proof.
  intros Hn Hs. destruct (plot_top_n_nlargest s n Hn) as (l & Hperm & Hsorted & Hrun).
  exists (take (Z.to_nat n) l).
  unfold Visualizer.plot_top_cities, Visualizer.plot_top_cn_cities.
  rewrite Hs. simpl. rewrite Hrun. split_and!; [done..| | |].
  - by apply sorted_desc_take.
  - by rewrite length_take, Hperm, value_counts_length.
  - intros v c Hin. apply elem_of_value_counts. rewrite <- Hperm.
    apply (subseteq_take (Z.to_nat n)), Hin.
Qed.

(** X18.  For a positive [n] the countries handed to the plot are
    pairwise different, they are as many as the counts, and they are the
    most frequent ones: a country of the column that is not plotted
    occurs in no more rows than any plotted count. *)
Theorem plot_top_countries_top df (n : Z) s :
  (0 < n)%Z →
  getitem df "Country" = Ok s →
  ∃ xs ys, Visualizer.plot_top_countries df n = Ok (xs, ys) ∧
           NoDup xs ∧ length xs = length ys ∧
           ∀ w, Some w ∈ s → w ∉ xs → ∀ c, c ∈ ys → row_count w s ≤ c.
Proof.
  intros Hn Hs. destruct (plot_top_n_nlargest s n Hn) as (l & Hperm & Hsorted & Hrun).
  do 2 eexists. unfold Visualizer.plot_top_countries.
  rewrite Hs. simpl. rewrite Hrun. split; [done|]. split_and!.
  - apply (sublist_NoDup _ l.*1).
    + unfold value_counts in Hperm. rewrite Hperm, sort_values_perm.
      apply NoDup_value_count.
    + apply fmap_sublist, sublist_take.
  - by rewrite !length_fmap.
  - intros w Hw Hnot c Hc.
    apply list_elem_of_fmap in Hc as ([v c'] & -> & Hin). simpl.
    assert ((w, row_count w s) ∈ l) as Hwl
      by (rewrite Hperm; by apply elem_of_value_counts).
    rewrite <- (take_drop (Z.to_nat n) l) in Hwl, Hsorted.
    apply elem_of_app in Hwl as [Hwl|Hwl].
    + destruct Hnot. apply list_elem_of_fmap. by exists (w, row_count w s).
    + apply (sorted_by_count_split _ _ (v, c') (w, row_count w s) Hsorted Hin Hwl).
Qed.

(** X19.  The edges of [plot_top_countries]: without a Country column it
    raises [KeyError]; with the column, it hands empty sequences to the
    plot when [n] is zero or negative, and for every [n] when the column
    holds no value. *)
Theorem plot_top_countries_edges df (n : Z) :
  ("Country" ∉ columns df →
     Visualizer.plot_top_countries df n = Raise (KeyError "Country")) ∧
  ("Country" ∈ columns df → (n ≤ 0)%Z →
     Visualizer.plot_top_countries df n = Ok ([], [])) ∧
  (∀ s, getitem df "Country" = Ok s → (∀ v, Some v ∉ s) →
     Visualizer.plot_top_countries df n = Ok ([], [])).
Proof.
  unfold Visualizer.plot_top_countries, Visualizer.plot_top_n. split_and!.
  - intros Hc. by rewrite (getitem_raise _ _ Hc).
  - intros Hc Hn. rewrite (getitem_ok _ _ Hc). simpl.
    unfold nlargest. rewrite decide_True by done. simpl.
    by rewrite !slice_to_nil.
  - intros s Hs Hnone. rewrite Hs. simpl. rewrite (value_counts_no_value _ Hnone).
    assert (nlargest n (@nil (V * nat)) = []) as ->.
    { unfold nlargest. repeat case_decide; [done| |apply take_nil].
      by rewrite sort_values_nil, take_nil. }
    simpl. by rewrite !slice_to_nil.
Qed.

(** X20.  For a positive [n] the counts handed to the plot add up to at
    most the number of rows that hold a country, and to exactly that
    number when [n] is at least the number of distinct countries. *)
Theorem plot_top_countries_total df (n : Z) s :
  (0 < n)%Z →
  getitem df "Country" = Ok s →
  ∃ xs ys, Visualizer.plot_top_countries df n = Ok (xs, ys) ∧
           sum_list ys ≤ length (dropna s) ∧
           (distinct s ≤ Z.to_nat n → sum_list ys = length (dropna s)).
Proof.
  intros Hn Hs. destruct (plot_top_n_nlargest s n Hn) as (l & Hperm & Hsorted & Hrun).
  do 2 eexists. unfold Visualizer.plot_top_countries.
  rewrite Hs. simpl. rewrite Hrun. split; [done|].
  assert (sum_list l.*2 = length (dropna s)) as <-.
  { rewrite (sum_counts_perm _ _ Hperm). unfold value_counts.
    rewrite (sum_counts_perm _ _ (sort_values_perm _)). apply value_count_sum. }
  split; [apply sum_counts_take|].
  intros Hall. rewrite take_ge; [done|].
  by rewrite Hperm, value_counts_length.
Qed.

(** X21.  The summary and the chart agree: when [analyze_data] returns,
    the first bar of [plot_top_countries] (for a positive [n]) stands for
    a most frequent country and its height is the number of rows of the
    top country of the summary. *)
Theorem top_country_first_bar df (n : Z) a countries :
  (0 < n)%Z →
  Analyzer.analyze_data df = Ok a →
  getitem df "Country" = Ok countries →
  ∃ v xs c ys, Visualizer.plot_top_countries df n = Ok (v :: xs, c :: ys) ∧
               most_frequent v countries ∧
               c = row_count (Analyzer.top_country a) countries.
Proof.
  intros Hn (stores & countries' & cities & _ & Hc & _ & Htc & _)%analyze_data_inv Hc'.
  rewrite Hc in Hc'. injection Hc' as ->.
  apply index0_value_counts_inv in Htc as [Hin Hmax].
  destruct (plot_top_n_nlargest countries n Hn) as (l & Hperm & Hsorted & Hrun).
  assert ((Analyzer.top_country a, row_count (Analyzer.top_country a) countries) ∈ l)
    as Htop by (rewrite Hperm; by apply elem_of_value_counts).
  destruct l as [|[v c] l]; [by apply elem_of_nil in Htop|].
  assert ((v, c) ∈ value_counts countries) as [Hv ->]%elem_of_value_counts
    by (rewrite <- Hperm; left).
  pose proof (sorted_desc_head _ _ _ Hsorted Htop) as Hge. simpl in Hge.
  exists v, (take (pred (Z.to_nat n)) l).*1, (row_count v countries),
    (take (pred (Z.to_nat n)) l).*2.
  unfold Visualizer.plot_top_countries. rewrite Hc. simpl. rewrite Hrun.
  destruct (Z.to_nat n) as [|k] eqn:Hk; [lia|]. simpl. split_and!; [done| |].
  - split; [done|]. intros w. etrans; [apply Hmax|done].
  - specialize (Hmax v). lia.
Qed.

End more_visualizer_facts.

(** * Further properties of how the steps of main.py compose *)

Section pipeline_facts.
  Context `{Countable V} `{!SortValues V} `{!Pandas V}.
  Implicit Types (self : DataProcessor.state V) (r : gmap string (option V)).

Lemma Forall2_setitem_rows (l : list (gmap string (option V))) (column : string)
    (s : list (option V)) :
  length s = length l →
  Forall2 (λ r r', ∀ c, c ≠ column → r' !! c = r !! c)
          l (zip_with (λ r v, <[column := v]> r) l s).
Proof.
  revert s. induction l as [|r l IH]; intros [|v s] Hlen; simplify_eq/=;
    constructor; [|by apply IH].
  intros c Hne. by rewrite lookup_insert_ne.
Qed.

Lemma Forall2_filter_cells (column : string) (country_code : V)
    (l l' : list (gmap string (option V))) :
  column ≠ "Country" →
  Forall2 (λ r r', ∀ c, c ≠ column → r' !! c = r !! c) l l' →
  Forall2 (λ r r', ∀ c, c ≠ column → r' !! c = r !! c)
          (filter (λ r, cell r "Country" = Some country_code) l)
          (filter (λ r, cell r "Country" = Some country_code) l').
Proof.
  intros Hne. induction 1 as [|r r' l l' Hr Hl IH]; [constructor|].
  assert (cell r' "Country" = cell r "Country") as Hcell
    by (unfold cell; by rewrite (Hr "Country")).
  rewrite !filter_cons, Hcell. case_decide; [by constructor|done].
Qed.

(** X22.  [filter_by_country] after [apply_function] on a column other
    than Country (as main.py filters after filling the cities) selects
    the rows at the positions it would have selected before: the two
    results have as many rows, which pair up in order and differ at most
    under the column written. *)
Theorem filter_by_country_after_apply func (column : string) (country_code : V)
    self self' :
  column ≠ "Country" →
  "Country" ∈ columns (DataProcessor.df self) →
  DataProcessor.apply_function func column self = (Ok (), self') →
  ∃ out out',
    (DataProcessor.filter_by_country country_code self).1 = Ok out ∧
    (DataProcessor.filter_by_country country_code self').1 = Ok out' ∧
    Forall2 (λ r r', ∀ c, c ≠ column → r' !! c = r !! c) (rows out) (rows out').
Proof.
  intros Hne Hcountry. unfold DataProcessor.apply_function.
  destruct (DataFrame_apply func _) as [s|e] eqn:Hrun; [|done]. intros [= <-].
  pose proof (DataFrame_apply_length _ _ _ Hrun) as Hlen.
  unfold DataProcessor.filter_by_country. cbn [DataProcessor.df fst].
  rewrite (getitem_ok _ _ Hcountry).
  rewrite getitem_ok by (apply columns_setitem; auto).
  do 2 eexists. split_and!; [done..|].
  cbn [boolean_index rows]. rewrite !mask_rows_Series_eq.
  apply Forall2_filter_cells; [done|]. by apply Forall2_setitem_rows.
Qed.

(** X23.  The chart of one country's cities (main.py plots
    [plot_top_cn_cities] on the result of [filter_by_country]) counts
    that country's stores only: each count handed to the plot is the
    number of rows of the processor's table that hold the country code
    and the city. *)
Theorem plot_top_cn_cities_of_filter (country_code : V) (n : Z) self :
  (0 < n)%Z →
  "Country" ∈ columns (DataProcessor.df self) →
  "City" ∈ columns (DataProcessor.df self) →
  ∃ cn top,
    (DataProcessor.filter_by_country country_code self).1 = Ok cn ∧
    Visualizer.plot_top_cn_cities cn n = Ok (top.*1, top.*2) ∧
    ∀ v c, (v, c) ∈ top →
      c = length (filter (λ r, cell r "City" = Some v ∧
                               cell r "Country" = Some country_code)
                         (rows (DataProcessor.df self))) ∧
      1 ≤ c.
Proof.
  intros Hn Hcountry Hcity. unfold DataProcessor.filter_by_country.
  rewrite (getitem_ok _ _ Hcountry). simpl.
  set (cn := boolean_index _ _).
  assert (rows cn = filter (λ r, cell r "Country" = Some country_code)
                           (rows (DataProcessor.df self))) as Hrows
    by apply mask_rows_Series_eq.
  destruct (plot_top_n_nlargest ((λ r, cell r "City") <$> rows cn) n Hn)
    as (l & Hperm & Hsorted & Hrun).
  assert ("City" ∈ columns cn) as Hcity' by done.
  exists cn, (take (Z.to_nat n) l). split; [done|]. clearbody cn. split.
  - unfold Visualizer.plot_top_cn_cities. rewrite (getitem_ok cn "City" Hcity').
    simpl. by rewrite Hrun.
  - intros v c Hin.
    assert ((v, c) ∈ value_counts ((λ r, cell r "City") <$> rows cn))
      as [Hv ->]%elem_of_value_counts
      by (rewrite <- Hperm; apply (subseteq_take (Z.to_nat n)), Hin).
    split; [|by apply row_count_pos].
    rewrite <- length_filter_cell, Hrows. by rewrite list_filter_filter.
Qed.

End pipeline_facts.

(** * The further properties on the scenarios *)

Lemma city_null_spec_witness :
  ∃ out, DataProcessor.city_null (processor missing_city)
         = (Ok out, processor missing_city) ∧
         length (rows out) = 1.
Proof.
  destruct (city_null_spec (processor missing_city)) as (out & Hrun & _ & _ & Hlen).
  - compute_done.
  - exists out. split; [exact Hrun|]. rewrite Hlen. vm_compute. reflexivity.
Defined.

Lemma apply_fill_city_witness :
  ∃ self', DataProcessor.apply_function fill_city "City" (processor missing_city)
           = (Ok (), self') ∧
           null_count (DataProcessor.df self') "City" = 0 ∧
           getitem (DataProcessor.df self') "City" = Ok [Some "WA"; Some "Seattle"].
Proof.
  destruct (apply_fill_city (processor missing_city))
    as (self' & Hrun & Hcols & _ & Hnull & _ & Hrows).
  - apply wf_table; [compute_done|]. repeat constructor.
  - discriminate.
  - compute_done.
  - compute_done.
  - exists self'. split; [exact Hrun|]. split.
    + rewrite Hnull. vm_compute. reflexivity.
    + unfold getitem. rewrite Hcols, Hrows.
      * vm_compute. reflexivity.
      * by apply as_array_id_handed.
      * reflexivity.
Defined.

Lemma apply_fill_city_twice_witness :
  DataProcessor.apply_function fill_city "City"
    (DataProcessor.apply_function fill_city "City" (processor missing_city)).2
  = DataProcessor.apply_function fill_city "City" (processor missing_city).
Proof.
  apply (apply_fill_city_twice (processor missing_city)).
  - discriminate.
  - discriminate.
  - by apply as_array_id_handed.
  - by apply as_array_id_handed.
  - reflexivity.
Defined.

Lemma apply_function_first_failure_witness :
  processor no_state = processor no_state ∧
  ∃ i r, rows no_state !! i = Some r ∧
         fill_city (as_array no_state <$> r) = Raise (KeyError "State/Province") ∧
         ∀ j r', j < i → rows no_state !! j = Some r' →
                 ∃ v, fill_city (as_array no_state <$> r') = Ok v.
Proof.
  apply (apply_function_first_failure fill_city "City" (processor no_state)).
  vm_compute. reflexivity.
Defined.

Lemma replace_values_no_key_witness :
  DataProcessor.replace_values "Brand" ∅ (processor two_brands)
  = (Ok (), processor two_brands).
Proof.
  apply replace_values_no_key.
  - apply wf_table; [compute_done|]. repeat constructor.
  - compute_done.
  - intros r _. apply lookup_empty.
Defined.

Lemma replace_values_fromkeys_unique_witness :
  ∃ self', DataProcessor.replace_values "Brand"
             (fromkeys (unique [Some "Starbucks"; Some "Teavana"]) (Some "Starbucks"))
             (processor two_brands)
           = (Ok (), self') ∧
           getitem (DataProcessor.df self') "Brand"
           = Ok (replicate (length (rows two_brands)) (Some "Starbucks")).
Proof.
  apply (replace_values_fromkeys_unique "Brand" (Some "Starbucks")
           (processor two_brands) [Some "Starbucks"; Some "Teavana"]).
  vm_compute. reflexivity.
Defined.

Lemma filter_by_country_row_count_witness :
  ∃ out, (DataProcessor.filter_by_country "US" (processor three_stores)).1 = Ok out ∧
         length (rows out) = 2.
Proof.
  destruct (filter_by_country_row_count (processor three_stores) "US"
              [Some "US"; Some "US"; Some "CN"])
    as (out & Hrun & _ & Hlen & _).
  - vm_compute. reflexivity.
  - exists out. split; [exact Hrun|]. rewrite Hlen. vm_compute. reflexivity.
Defined.


Lemma analyze_data_bounds_witness :
  ∃ a, Analyzer.analyze_data three_stores = Ok a ∧
       Analyzer.total_stores a ≤ 3 ∧ 1 ≤ Analyzer.total_countries a ≤ 3.
Proof.
  exists (Analyzer.mkAnalysis 3 2 "US" "Seattle").
  destruct (analyze_data_bounds three_stores (Analyzer.mkAnalysis 3 2 "US" "Seattle")
              [Some "US"; Some "US"; Some "CN"]
              [Some "Seattle"; Some "Seattle"; Some "Beijing"])
    as (Hs & Hc & _).
  - vm_compute. reflexivity.
  - vm_compute. reflexivity.
  - vm_compute. reflexivity.
  - split; [vm_compute; reflexivity|]. split; [exact Hs|exact Hc].
Defined.

Lemma analyze_data_unique_stores_witness :
  Analyzer.total_stores (Analyzer.mkAnalysis 3 2 "US" "Seattle")
  = length (rows three_stores).
Proof.
  apply (analyze_data_unique_stores three_stores _ [Some "1"; Some "2"; Some "3"]).
  - vm_compute. reflexivity.
  - vm_compute. reflexivity.
  - compute_done.
  - intros c Hc ->. revert Hc. compute_done.
Defined.

Lemma analyze_data_replace_frame_witness :
  Analyzer.analyze_data
    (DataProcessor.df
       (DataProcessor.replace_values "Brand"
          {[ Some "Teavana" := Some "Starbucks" ]} (processor branded_cities)).2)
  = Analyzer.analyze_data (DataProcessor.df (processor branded_cities)) ∧
  Analyzer.analyze_data (DataProcessor.df (processor branded_cities))
  = Ok (Analyzer.mkAnalysis 3 2 "US" "Seattle") ∧
  getitem (DataProcessor.df
             (DataProcessor.replace_values "Brand"
                {[ Some "Teavana" := Some "Starbucks" ]} (processor branded_cities)).2)
          "Brand"
  = Ok [Some "Starbucks"; Some "Starbucks"; Some "Starbucks"].
Proof.
  split; [by apply analyze_data_replace_frame|].
  split; vm_compute; reflexivity.
Defined.

Lemma analyze_data_after_fill_witness :
  ∃ a', Analyzer.analyze_data
          (DataProcessor.df
             (DataProcessor.apply_function fill_city "City" (processor missing_city)).2)
        = Ok a' ∧
        Analyzer.total_stores a' = 2 ∧ Analyzer.total_countries a' = 1 ∧
        Analyzer.top_country a' = "US".
Proof.
  apply (analyze_data_after_fill (processor missing_city)
           (Analyzer.mkAnalysis 2 1 "US" "Seattle")).
  vm_compute. reflexivity.
Defined.

Lemma analyze_data_row_order_witness :
  ∃ a', Analyzer.analyze_data three_stores_reversed = Ok a' ∧
        Analyzer.total_stores a' = 3 ∧ Analyzer.total_countries a' = 2.
Proof.
  destruct (analyze_data_row_order three_stores three_stores_reversed
              (Analyzer.mkAnalysis 3 2 "US" "Seattle")
              [Some "US"; Some "US"; Some "CN"]
              [Some "Seattle"; Some "Seattle"; Some "Beijing"])
    as (a' & Hrun & Hs & Hc & _).
  - reflexivity.
  - unfold three_stores_reversed, three_stores, table. cbn [rows fmap list_fmap].
    apply (reverse_Permutation [_; _; _]).
  - vm_compute. reflexivity.
  - vm_compute. reflexivity.
  - vm_compute. reflexivity.
  - exists a'. split_and!; [exact Hrun|exact Hs|exact Hc].
Defined.

Lemma plot_top_cities_spec_witness :
  ∃ top, Visualizer.plot_top_cities three_stores 10 = Ok (top.*1, top.*2) ∧
         length top = 2.
Proof.
  destruct (plot_top_cities_spec three_stores 10
              [Some "Seattle"; Some "Seattle"; Some "Beijing"])
    as (top & Hrun & _ & _ & Hlen & _).
  - lia.
  - vm_compute. reflexivity.
  - exists top. split; [exact Hrun|]. rewrite Hlen. vm_compute. reflexivity.
Defined.

Lemma plot_top_countries_top_witness :
  ∃ xs ys, Visualizer.plot_top_countries three_stores 1 = Ok (xs, ys) ∧
           NoDup xs ∧ length xs = length ys.
Proof.
  destruct (plot_top_countries_top three_stores 1 [Some "US"; Some "US"; Some "CN"])
    as (xs & ys & Hrun & Hnd & Hlen & _).
  - lia.
  - vm_compute. reflexivity.
  - exists xs, ys. split_and!; [exact Hrun|exact Hnd|exact Hlen].
Defined.

Lemma plot_top_countries_total_witness :
  ∃ xs ys, Visualizer.plot_top_countries three_stores 10 = Ok (xs, ys) ∧
           sum_list ys = 3.
Proof.
  destruct (plot_top_countries_total three_stores 10 [Some "US"; Some "US"; Some "CN"])
    as (xs & ys & Hrun & _ & Hall).
  - lia.
  - vm_compute. reflexivity.
  - exists xs, ys. split; [exact Hrun|]. rewrite Hall; [reflexivity|].
    vm_compute. lia.
Defined.

Lemma top_country_first_bar_witness :
  ∃ v xs c ys, Visualizer.plot_top_countries three_stores 10 = Ok (v :: xs, c :: ys) ∧
               c = 2.
Proof.
  destruct (top_country_first_bar three_stores 10
              (Analyzer.mkAnalysis 3 2 "US" "Seattle")
              [Some "US"; Some "US"; Some "CN"])
    as (v & xs & c & ys & Hrun & _ & Hc).
  - lia.
  - vm_compute. reflexivity.
  - vm_compute. reflexivity.
  - exists v, xs, c, ys. split; [exact Hrun|]. rewrite Hc. vm_compute. reflexivity.
Defined.

Lemma filter_by_country_after_apply_witness :
  ∃ out out',
    (DataProcessor.filter_by_country "US" (processor missing_city)).1 = Ok out ∧
    (DataProcessor.filter_by_country "US"
       (DataProcessor.apply_function fill_city "City" (processor missing_city)).2).1
    = Ok out' ∧
    length (rows out) = length (rows out').
Proof.
  destruct (filter_by_country_after_apply fill_city "City" "US"
              (processor missing_city)
              (DataProcessor.apply_function fill_city "City" (processor missing_city)).2)
    as (out & out' & Hrun & Hrun' & Hrows).
  - done.
  - compute_done.
  - vm_compute. reflexivity.
  - exists out, out'. split_and!; [exact Hrun|exact Hrun'|].
    apply (Forall2_length _ _ _ Hrows).
Defined.

Lemma plot_top_cn_cities_of_filter_witness :
  ∃ cn top,
    (DataProcessor.filter_by_country "US" (processor three_stores)).1 = Ok cn ∧
    Visualizer.plot_top_cn_cities cn 10 = Ok (top.*1, top.*2) ∧
    ∀ v c, (v, c) ∈ top →
      c = length (filter (λ r, cell r "City" = Some v ∧ cell r "Country" = Some "US")
                         (rows three_stores)) ∧
      1 ≤ c.
Proof.
  apply (plot_top_cn_cities_of_filter "US" 10 (processor three_stores)).
  - lia.
  - compute_done.
  - compute_done.
Defined.
